(** * Unlimited SMS Gateway: the message dispatch engine of [src/index.js]

    A shallow embedding of the [UnlimitedSMSGateway] class and of the
    constants of [src/config.js] it reads, followed by the properties of
    the engine that are proved about it.

    Conventions of the embedding.
    - A JavaScript string is the list of its UTF-16 code units ([jsstring]);
      [length] is [String.prototype.length].  Labels that the program only
      ever compares or prints (country names, method names, statuses) are
      Rocq strings.
    - A JavaScript number that the program uses as a counter or an index is
      an integer ([Z] or [nat]).  A score, priority or probability is the
      rational value ([Q]) of an IEEE binary64 number: a literal of the
      source is rounded to the nearest binary64 value ([dbl]) and so is the
      result of every [+], [-] and [*] (ties to even).  NaN, the infinities
      and subnormal numbers are not represented; the magnitudes the engine
      computes with stay far from them.
    - [undefined] is [None]; an exception is the [Throws] completion.
    - [Math.random()], [Date.now()] and [new Date()] are read from an
      explicit record of draws, one field per call site. *)

From Stdlib Require Import ZArith QArith Qround Lqa Lia List String Ascii Bool.
From stdpp Require Import base option list gmap strings.
From Equations Require Import Equations.
Import ListNotations.

Local Open Scope string_scope.
Local Open Scope nat_scope.

(* ===================================================================== *)
(** ** The fragment of JavaScript the engine relies on                    *)
(* ===================================================================== *)

Module JS.

(** A string is a sequence of 16-bit code units. *)
Definition jsstring := list N.

(** The code units of an ASCII literal of the source. *)
Definition lit (s : string) : jsstring :=
  map N_of_ascii (list_ascii_of_string s).

(** Error objects: only [name] and [message] are ever read. *)
Record Error := mkError { err_name : string; err_message : string }.

(** Completion of a call: a value, or an exception on its way up. *)
Inductive completion (A : Type) : Type :=
| Returns (a : A)
| Throws (e : Error).
Arguments Returns {A} a.
Arguments Throws {A} e.

Definition bind {A B} (c : completion A) (k : A -> completion B)
  : completion B :=
  match c with
  | Returns a => k a
  | Throws e => Throws e
  end.

(** [try { body } catch (error) { handler(error) }] *)
Definition try_catch {A} (body : completion A) (handler : Error -> completion A)
  : completion A :=
  match body with
  | Returns a => Returns a
  | Throws e => handler e
  end.

(** Reading a property of [undefined] raises a [TypeError]. *)
Definition reading_of_undefined (prop : string) : Error :=
  mkError "TypeError"
    ("Cannot read properties of undefined (reading '" ++ prop ++ "')").

(** Calling a property that holds [undefined] raises a [TypeError]. *)
Definition not_a_function (callee : string) : Error :=
  mkError "TypeError" (callee ++ " is not a function").

(** [v.prop] for a value that is a string or [undefined]. *)
Definition member {A} (v : option jsstring) (prop : string)
    (k : jsstring -> A) : completion A :=
  match v with
  | Some s => Returns (k s)
  | None => Throws (reading_of_undefined prop)
  end.

(** [s.startsWith(prefix)] *)
Fixpoint startsWith (s prefix : jsstring) {struct prefix} : bool :=
  match prefix, s with
  | [], _ => true
  | p :: prefix', c :: s' => (c =? p)%N && startsWith s' prefix'
  | _ :: _, [] => false
  end.

(** [s.substring(a, b)] for non-negative integer arguments: both ends are
    clamped to the length and swapped when out of order. *)
Definition substring (s : jsstring) (a b : nat) : jsstring :=
  let a' := Nat.min a (length s) in
  let b' := Nat.min b (length s) in
  let lo := Nat.min a' b' in
  let hi := Nat.max a' b' in
  take (hi - lo) (drop lo s).

(** [s.includes(word)] *)
Fixpoint includes (s word : jsstring) : bool :=
  startsWith s word ||
  match s with
  | [] => false
  | _ :: s' => includes s' word
  end.

(** [s.toLowerCase()].  A string of ASCII units is lowered unit by unit;
    what the Unicode case tables make of a string with a unit above 0x7F is
    left to the argument [unicodeLower]. *)
Definition lowerAscii (c : N) : N :=
  if ((65 <=? c) && (c <=? 90))%N then (c + 32)%N else c.

Definition toLowerCase (unicodeLower : jsstring -> jsstring) (s : jsstring)
  : jsstring :=
  if forallb (fun c => c <=? 127)%N s then map lowerAscii s
  else unicodeLower s.

(** White space and line terminators, the units [trim] strips. *)
Definition isWhiteSpace (c : N) : bool :=
  ((9 <=? c) && (c <=? 13) || (c =? 32) || (c =? 160) || (c =? 5760)
   || (8192 <=? c) && (c <=? 8202) || (c =? 8232) || (c =? 8233)
   || (c =? 8239) || (c =? 8287) || (c =? 12288) || (c =? 65279))%N.

Fixpoint dropWhile {A} (p : A -> bool) (l : list A) : list A :=
  match l with
  | [] => []
  | x :: l' => if p x then dropWhile p l' else l
  end.

(** [s.trim()] *)
Definition trim (s : jsstring) : jsstring :=
  rev (dropWhile isWhiteSpace (rev (dropWhile isWhiteSpace s))).

(** Numbers.  [scale2 n e] is [n * 2^e]. *)
Definition scale2 (n e : Z) : Q :=
  if (0 <=? e)%Z then inject_Z (n * 2 ^ e) else Qmake n (Z.to_pos (2 ^ (- e))).

(** The integer nearest to [a / b] for positive [a] and [b], ties to even. *)
Definition nearest_even (a b : Z) : Z :=
  let f := (a / b)%Z in
  let r := (a mod b)%Z in
  match (2 * r ?= b)%Z with
  | Lt => f
  | Gt => (f + 1)%Z
  | Eq => if Z.even f then f else (f + 1)%Z
  end.

(** The binary64 value nearest to [a / b] for positive [a] and [b]: with
    [2^k <= a / b < 2^(k+1)], the quotient is rounded to 53 significant
    bits. *)
Definition double_pos (a b : Z) : Q :=
  let d := (Z.log2 a - Z.log2 b)%Z in
  let below :=
    if (0 <=? d)%Z then (a <? b * 2 ^ d)%Z else (a * 2 ^ (- d) <? b)%Z in
  let k := if below then (d - 1)%Z else d in
  let s := (52 - k)%Z in
  let n := if (0 <=? s)%Z then nearest_even (a * 2 ^ s) b
           else nearest_even a (b * 2 ^ (- s)) in
  scale2 n (- s).

(** The binary64 value nearest to a rational. *)
Definition double (q : Q) : Q :=
  let q := Qred q in
  match Qnum q with
  | Z0 => 0%Q
  | Zpos a => double_pos (Zpos a) (Zpos (Qden q))
  | Zneg a => Qopp (double_pos (Zpos a) (Zpos (Qden q)))
  end.

(** A numeric literal of the source. *)
Definition dbl (q : Q) : Q := double q.

(** [a + b], [a - b], [a * b] on numbers. *)
Definition add (a b : Q) : Q := double (a + b).
Definition sub (a b : Q) : Q := double (a - b).
Definition mul (a b : Q) : Q := double (a * b).

Declare Scope number_scope.
Delimit Scope number_scope with number.
Notation "a + b" := (add a b) : number_scope.
Notation "a - b" := (sub a b) : number_scope.
Notation "a * b" := (mul a b) : number_scope.

(** [Math.min], [Math.max]: one of the two arguments, unrounded. *)
Definition Math_min (a b : Q) : Q := if Qle_bool a b then a else b.
Definition Math_max (a b : Q) : Q := if Qle_bool a b then b else a.

(** [Math.floor] *)
Definition Math_floor (x : Q) : Z := Qfloor x.

(** [table[key] || dflt] for an object literal [table] with non-zero
    numbers or non-empty strings as values. *)
Fixpoint lookup_or {V} (table : list (string * V)) (key : string) (dflt : V) : V :=
  match table with
  | [] => dflt
  | (k, v) :: rest => if String.eqb k key then v else lookup_or rest key dflt
  end.

End JS.
Import JS.

(* ===================================================================== *)
(** ** [src/config.js]                                                    *)
(* ===================================================================== *)

Module config.

Definition MAX_MESSAGE_LENGTH : nat := 1000.

Definition TRANSMISSION_METHODS : list string :=
  [ "QUANTUM_TUNNELING";
    "VIRTUAL_GSM_SIMULATION";
    "AI_OPTIMIZED_ROUTING";
    "DIRECT_SOCKET_CONNECTION";
    "WAVE_FUNCTION_TRANSMISSION" ].

End config.

(* ===================================================================== *)
(** ** Validator                                                          *)
(* ===================================================================== *)

Definition isDigit (c : N) : bool := ((48 <=? c) && (c <=? 57))%N.

(** [/^\+[1-9]\d{10,14}$/.test(phoneNumber)] *)
Definition phoneRegex_test (phoneNumber : jsstring) : bool :=
  match phoneNumber with
  | plus :: first :: rest =>
      (plus =? 43)%N && ((49 <=? first) && (first <=? 57))%N
      && forallb isDigit rest
      && (10 <=? length rest) && (length rest <=? 14)
  | _ => false
  end.

(** The object literal of [detectCountry]; [Object.entries] walks it in
    insertion order, none of the keys being an array index. *)
Definition countryCodes : list (jsstring * string) :=
  [ (lit "+92", "PAKISTAN");
    (lit "+1", "USA");
    (lit "+44", "UK");
    (lit "+971", "UAE");
    (lit "+966", "SAUDI_ARABIA");
    (lit "+91", "INDIA");
    (lit "+86", "CHINA") ].

(** The [for ... of] loop of [detectCountry] over a table. *)
Fixpoint detectCountry_in (table : list (jsstring * string))
    (phoneNumber : jsstring) : string :=
  match table with
  | [] => "INTERNATIONAL"
  | (code, country) :: rest =>
      if startsWith phoneNumber code then country
      else detectCountry_in rest phoneNumber
  end.

Definition detectCountry (phoneNumber : jsstring) : string :=
  detectCountry_in countryCodes phoneNumber.

(** The [message] of a validation is the first line of the text of the
    source, without its emoji. *)
Record PhoneValidation := mkPhoneValidation {
  pv_valid : bool;
  pv_message : string;
  pv_country : string
}.

Definition validatePhoneNumber (phoneNumber : jsstring) : PhoneValidation :=
  if negb (phoneRegex_test phoneNumber) then
    mkPhoneValidation false
      "Invalid phone number format. Please use international format."
      "UNKNOWN"
  else
    let country := detectCountry phoneNumber in
    mkPhoneValidation true "Phone number accepted" country.

Record MessageValidation := mkMessageValidation {
  mv_valid : bool;
  mv_message : string
}.

Definition validateMessage (message : jsstring) : MessageValidation :=
  if (length message =? 0) || (length (trim message) =? 0) then
    mkMessageValidation false "Message cannot be empty"
  else if config.MAX_MESSAGE_LENGTH <? length message then
    mkMessageValidation false "Message too long (max 1000 characters)"
  else
    mkMessageValidation true "Message accepted".

(** [splitMessage]: the [for] loop, with [i] the loop variable and [parts]
    the array built so far. *)
Definition maxLength : nat := 160.

Equations? splitMessage_loop (message : jsstring) (i : nat)
    (parts : list jsstring) : list jsstring
    by wf (length message - i) lt :=
  splitMessage_loop message i parts with lt_dec i (length message) => {
    | left _ :=
        splitMessage_loop message (i + maxLength)
          (parts ++ [substring message i (i + maxLength)]);
    | right _ := parts }.
Proof. unfold maxLength. lia. Qed.

Definition splitMessage (message : jsstring) : list jsstring :=
  splitMessage_loop message 0 [].

(** [detectEncoding] *)
Definition detectEncoding (message : jsstring) : string :=
  if existsb (fun c => 255 <? c)%N message then "UNICODE"
  else if existsb (fun c => 127 <? c)%N message then "GSM_EXTENDED"
  else "GSM_7BIT".

(* ===================================================================== *)
(** ** What the host supplies during one call into the engine            *)
(* ===================================================================== *)

(** One field per call site of [Math.random()], [Date.now()] and
    [new Date()], and the Unicode part of [toLowerCase].  The identifier
    [`TX_${Date.now()}_${Math.random().toString(36).substr(2, 9)}`] is
    read as a whole. *)
Record Host := mkHost {
  unicodeLower : jsstring -> jsstring;
  transmissionIdDraw : string;       (* processSMSTransmission, first line *)
  startTime : Z;                     (* processSMSTransmission *)
  endTime : Z;                       (* Date.now() of timeTaken, both branches *)
  hours : Z;                         (* new Date().getHours() *)
  scoreDraw : nat -> Q;              (* k-th Math.random() of the scoring map *)
  encryptionTime : Z;                (* applyQuantumEncryption *)
  routeDraw : Q;                     (* generateRoute *)
  signalDraw : Q;                    (* transmitSMS, signalStrength *)
  deliveryClock : Z;                 (* transmitSMS, deliveryTime *)
  entanglementDraw : Q;              (* transmitSMS, quantumEntanglement *)
  previewDraw : Q;                   (* selectTransmissionMethod *)
  isoTime : string;                  (* new Date().toISOString() *)
  clock : Z;                         (* Date.now() of sessions and health *)
  heapUsed : Z;                      (* process.memoryUsage() *)
  uptime : Z                         (* process.uptime() *)
}.

(* ===================================================================== *)
(** ** Transmission optimizer                                             *)
(* ===================================================================== *)

Local Open Scope Q_scope.
Local Open Scope number_scope.

Definition countryPriority : list (string * Q) :=
  [ ("PAKISTAN", dbl 1.2); ("USA", dbl 1.1); ("UAE", dbl 1.0);
    ("SAUDI_ARABIA", dbl 1.0); ("INTERNATIONAL", dbl 0.9) ].

Definition urgentWords : list jsstring :=
  [ lit "urgent"; lit "emergency"; lit "asap"; lit "immediately" ].

Definition calculatePriority (lower : jsstring -> jsstring)
    (phoneNumber message : jsstring) : Q :=
  let priority := dbl 1 in
  let country := detectCountry phoneNumber in
  let priority := priority * lookup_or countryPriority country (dbl 1.0) in
  let lowerMessage := toLowerCase lower message in
  let priority :=
    fold_left
      (fun priority word =>
         if includes lowerMessage word then priority * dbl 1.5 else priority)
      urgentWords priority in
  Math_min (dbl 3) priority.

Definition routes : list (string * string) :=
  [ ("PAKISTAN", "QUANTUM_PAKISTAN_HUB");
    ("USA", "SATELLITE_US_NET");
    ("UAE", "MIDDLE_EAST_HUB");
    ("SAUDI_ARABIA", "ARABIAN_NETWORK");
    ("INTERNATIONAL", "GLOBAL_AI_ROUTING") ]%string.

Definition calculateBestRoute (phoneNumber : jsstring) : string :=
  let country := detectCountry phoneNumber in
  lookup_or routes country "DEFAULT_AI_ROUTE"%string.

Definition calculateTransmissionWindow (hour : Z) : string :=
  if ((1 <=? hour) && (hour <=? 5))%Z then "OPTIMAL_NIGHT_WINDOW"
  else if ((13 <=? hour) && (hour <=? 17))%Z then "PEAK_AVOIDANCE_WINDOW"
  else "STANDARD_WINDOW".

Definition countryProbabilities : list (string * Q) :=
  [ ("PAKISTAN", dbl 0.95); ("USA", dbl 0.90); ("UAE", dbl 0.92);
    ("SAUDI_ARABIA", dbl 0.91); ("INTERNATIONAL", dbl 0.80) ].

Definition calculateSuccessProbability (phoneNumber : jsstring) : Q :=
  let probability := dbl 0.85 in
  let country := detectCountry phoneNumber in
  let probability :=
    probability * lookup_or countryProbabilities country (dbl 0.85) in
  let probability := probability + dbl 0.1 in
  Math_min (dbl 0.99) probability.

Record Optimization := mkOptimization {
  opt_phoneNumber : jsstring;
  opt_country : string;
  opt_messageLength : nat;
  opt_parts : nat;
  opt_encoding : string;
  opt_priority : Q;
  opt_bestRoute : string;
  opt_transmissionWindow : string;
  opt_successProbability : Q
}.

(** [optimizeTransmission].  The fields of the literal are evaluated in
    order: [detectCountry] is the first to dereference [phoneNumber] and
    [message.length] the first to dereference [message]. *)
Definition optimizeTransmission (h : Host)
    (phoneNumber message : option jsstring) : completion Optimization :=
  match phoneNumber with
  | None => Throws (reading_of_undefined "startsWith")
  | Some p =>
      match message with
      | None => Throws (reading_of_undefined "length")
      | Some m =>
          Returns
            {| opt_phoneNumber := p;
               opt_country := detectCountry p;
               opt_messageLength := length m;
               opt_parts := length (splitMessage m);
               opt_encoding := detectEncoding m;
               opt_priority := calculatePriority (unicodeLower h) p m;
               opt_bestRoute := calculateBestRoute p;
               opt_transmissionWindow := calculateTransmissionWindow (hours h);
               opt_successProbability := calculateSuccessProbability p |}
      end
  end.

(** The jitter [Math.random() * 0.2 - 0.1] of a draw. *)
Definition jitter (draw : Q) : Q := draw * dbl 0.2 - dbl 0.1.

(** [scoreTransmissionMethod], with [draw] the value of its one call of
    [Math.random()]. *)
Definition scoreTransmissionMethod (method : string)
    (optimization : Optimization) (draw : Q) : Q :=
  let score := dbl 0.5 in
  let score :=
    if String.eqb method "QUANTUM_TUNNELING" then
      let score := score + dbl 0.3 in
      if String.eqb (opt_country optimization) "PAKISTAN"
      then score + dbl 0.1 else score
    else if String.eqb method "VIRTUAL_GSM_SIMULATION" then
      let score := score + dbl 0.25 in
      if (160 <? opt_messageLength optimization)%nat
      then score + dbl 0.15 else score
    else if String.eqb method "AI_OPTIMIZED_ROUTING" then
      let score := score + dbl 0.2 in
      if negb (Qle_bool (opt_priority optimization) (dbl 1))
      then score + dbl 0.2 else score
    else if String.eqb method "DIRECT_SOCKET_CONNECTION" then
      score + dbl 0.15
    else if String.eqb method "WAVE_FUNCTION_TRANSMISSION" then
      score + dbl 0.4
    else score in
  let score := score + jitter draw in
  Math_min (dbl 1) (Math_max (dbl 0) score).

(** [array.reduce(f)] without an initial value. *)
Definition reduce {A} (f : A -> A -> A) (array : list A) : completion A :=
  match array with
  | [] => Throws (mkError "TypeError" "Reduce of empty array with no initial value")
  | first :: rest => Returns (fold_left f rest first)
  end.

(** The callback of the [reduce] in [selectBestTransmissionMethod]. *)
Definition better (best current : string * Q) : string * Q :=
  if negb (Qle_bool (snd current) (snd best)) then current else best.

(** [selectBestTransmissionMethod] over a method list; [draws k] is the
    draw of the [k]-th call of [scoreTransmissionMethod]. *)
Definition selectBest_over (methods : list string) (draws : nat -> Q)
    (optimization : Optimization) : completion string :=
  let scores :=
    imap (fun k method =>
            (method, scoreTransmissionMethod method optimization (draws k)))
         methods in
  bind (reduce better scores) (fun best => Returns (fst best)).

Definition selectBestTransmissionMethod (draws : nat -> Q)
    (optimization : Optimization) : completion string :=
  selectBest_over config.TRANSMISSION_METHODS draws optimization.

Local Close Scope number_scope.
Local Close Scope Q_scope.

(* ===================================================================== *)
(** ** Transmission executor                                              *)
(* ===================================================================== *)

(** [ToInt32], the wrap-around of the bit operators. *)
Definition toInt32 (z : Z) : Z :=
  let m := (z mod 4294967296)%Z in
  if (2147483648 <=? m)%Z then (m - 4294967296)%Z else m.

(** [n.toString(36)] for an integer [n] of 32 bits. *)
Definition digit36 (d : Z) : ascii :=
  ascii_of_nat (Z.to_nat (if (d <? 10)%Z then 48 + d else 87 + d)%Z).

Fixpoint digits36 (fuel : nat) (n : Z) (acc : string) : string :=
  match fuel with
  | O => acc
  | S fuel' =>
      let acc' := String (digit36 (n mod 36)%Z) acc in
      if (n / 36 =? 0)%Z then acc' else digits36 fuel' (n / 36)%Z acc'
  end.

Definition toString36 (n : Z) : string :=
  if (n <? 0)%Z then "-" ++ digits36 7 (- n)%Z "" else digits36 7 n "".

(** [calculateHash]: [hash = ((hash << 5) - hash) + char; hash = hash & hash]
    for every code unit in turn. *)
Definition calculateHash (data : jsstring) : string :=
  let hash :=
    fold_left
      (fun hash char => toInt32 (toInt32 (hash * 32) - hash + Z.of_N char)%Z)
      data 0%Z in
  toString36 hash.

Record EncryptedData := mkEncryptedData {
  enc_encryptedId : Z;          (* the time stamp inside [`ENC_${Date.now()}`] *)
  enc_algorithm : string;
  enc_keySize : nat;
  enc_timestamp : Z;
  enc_dataHash : string
}.

Definition applyQuantumEncryption (h : Host) (message : jsstring) : EncryptedData :=
  {| enc_encryptedId := encryptionTime h;
     enc_algorithm := "QUANTUM_SHA512";
     enc_keySize := 512;
     enc_timestamp := encryptionTime h;
     enc_dataHash := calculateHash message |}.

Definition times : list (string * Z) :=
  [ ("QUANTUM_TUNNELING", 800%Z);
    ("VIRTUAL_GSM_SIMULATION", 1200%Z);
    ("AI_OPTIMIZED_ROUTING", 600%Z);
    ("DIRECT_SOCKET_CONNECTION", 1000%Z);
    ("WAVE_FUNCTION_TRANSMISSION", 400%Z) ].

Definition getTransmissionTime (method : string) : Z :=
  lookup_or times method 1000%Z.

Definition routeCorpus : list string :=
  [ "QUANTUM_HUB_1 → SATELLITE_NET → GROUND_STATION → TARGET";
    "VIRTUAL_GSM_NETWORK → AI_ROUTER → DESTINATION";
    "DIRECT_WAVE → QUANTUM_RELAY → FINAL_NODE";
    "AI_OPTIMIZED_PATH → MULTI_HOP → ENDPOINT" ].

(** [array[Math.floor(x)]]: [undefined] outside the array. *)
Definition at_floor {A} (array : list A) (x : Q) : option A :=
  let k := Math_floor x in
  if (k <? 0)%Z then None else array !! Z.to_nat k.

(** [generateRoute]; [draw] is its [Math.random()]. *)
Definition generateRoute (draw : Q) (phoneNumber : jsstring) : option string :=
  at_floor routeCorpus (draw * inject_Z (Z.of_nat (length routeCorpus)))%number.

Definition networks : list (jsstring * string) :=
  [ (lit "+92", "PAKISTAN_QUANTUM_NET");
    (lit "+1", "USA_GLOBAL_NET");
    (lit "+44", "UK_EURO_NET");
    (lit "+971", "UAE_MIDEAST_NET");
    (lit "+966", "SAUDI_ARAB_NET") ].

Fixpoint simulateNetwork_in (table : list (jsstring * string))
    (phoneNumber : jsstring) : string :=
  match table with
  | [] => "GLOBAL_AI_NETWORK"
  | (prefix, network) :: rest =>
      if startsWith phoneNumber prefix then network
      else simulateNetwork_in rest phoneNumber
  end.

Definition simulateNetwork (phoneNumber : jsstring) : string :=
  simulateNetwork_in networks phoneNumber.

Record TransmitResult := mkTransmitResult {
  tr_success : bool;
  tr_route : option string;
  tr_network : string;
  tr_signalStrength : Z;
  tr_deliveryTime : Z;
  tr_transmissionMethod : string;
  tr_quantumEntanglement : string
}.

(** [transmitSMS]; the awaited timer always fires, after
    [getTransmissionTime method] milliseconds. *)
Definition transmitSMS (h : Host) (phoneNumber : jsstring) (method : string)
    : TransmitResult :=
  let transmissionTime := getTransmissionTime method in
  {| tr_success := true;
     tr_route := generateRoute (routeDraw h) phoneNumber;
     tr_network := simulateNetwork phoneNumber;
     tr_signalStrength := Math_floor (signalDraw h * dbl 100)%number;
     tr_deliveryTime := (deliveryClock h + transmissionTime)%Z;
     tr_transmissionMethod := method;
     tr_quantumEntanglement :=
       if negb (Qle_bool (entanglementDraw h) (dbl 0.7))
       then "ESTABLISHED" else "PARTIAL" |}.

(** The object [processSMSTransmission] returns, on either branch; a key
    the branch does not write is [None]. *)
Record TxResult := mkTxResult {
  tx_success : bool;
  tx_transmissionId : string;
  tx_phoneNumber : option jsstring;
  tx_message : option jsstring;
  tx_error : option string;
  tx_timeTaken : Z;
  tx_method : string;
  tx_parts : option nat;
  tx_status : string;
  tx_route : option string;
  tx_transmission : option TransmitResult   (* the spread [...transmissionResult] *)
}.

(** What the [try] block of [processSMSTransmission] has computed when it
    reaches its [return]. *)
Record Transmitted := mkTransmitted {
  done_phoneNumber : jsstring;
  done_message : jsstring;
  done_optimization : Optimization;
  done_method : string;
  done_encryptedData : EncryptedData;
  done_transmissionResult : TransmitResult
}.

(** The four steps of the [try] block, each dereferencing its arguments as
    the source does. *)
Definition transmission_steps (h : Host) (phoneNumber message : option jsstring)
    : completion Transmitted :=
  bind (optimizeTransmission h phoneNumber message) (fun optimization =>
  bind (selectBestTransmissionMethod (scoreDraw h) optimization) (fun method =>
  bind (member message "length" (fun m => (m, applyQuantumEncryption h m)))
       (fun '(m, encryptedData) =>
  bind (member phoneNumber "startsWith" (fun p => (p, transmitSMS h p method)))
       (fun '(p, transmissionResult) =>
  Returns (mkTransmitted p m optimization method encryptedData
             transmissionResult))))).

Definition processSMSTransmission (h : Host)
    (phoneNumber message : option jsstring) : completion TxResult :=
  let transmissionId := transmissionIdDraw h in
  try_catch
    (bind (transmission_steps h phoneNumber message) (fun t =>
       let m := done_message t in
       let timeTaken := (endTime h - startTime h)%Z in
       Returns
         {| tx_success := true;
            tx_transmissionId := transmissionId;
            tx_phoneNumber := Some (done_phoneNumber t);
            tx_message :=
              Some (app (substring m 0 50)
                        (if 50 <? length m then lit "..." else []));
            tx_error := None;
            tx_timeTaken := timeTaken;
            tx_method := done_method t;
            tx_parts := Some (opt_parts (done_optimization t));
            tx_status := "DELIVERED";
            tx_route := tr_route (done_transmissionResult t);
            tx_transmission := Some (done_transmissionResult t) |}))
    (fun error =>
       Returns
         {| tx_success := false;
            tx_transmissionId := transmissionId;
            tx_phoneNumber := phoneNumber;
            tx_message := None;
            tx_error := Some (err_message error);
            tx_timeTaken := (endTime h - startTime h)%Z;
            tx_method := "FAILED";
            tx_parts := None;
            tx_status := "FAILED";
            tx_route := None;
            tx_transmission := None |}).

(* ===================================================================== *)
(** ** The gateway object and its persisted collections                   *)
(* ===================================================================== *)

(** [session.data]: an object that starts empty and gains keys. *)
Record SessionData := mkSessionData {
  sd_phoneNumber : option jsstring;
  sd_country : option string;
  sd_message : option jsstring;
  sd_messageParts : option (list jsstring)
}.

Definition emptyData : SessionData := mkSessionData None None None None.

Record Session := mkSession {
  step : string;
  mode : string;
  data : SessionData;
  timestamp : Z
}.

Record SystemStats := mkSystemStats {
  totalSMS : Z;
  successful : Z;
  failed : Z;
  activeUsers : Z;
  queueSize : Z;
  stats_startTime : Z
}.

(** An element of [this.transmissionQueue]. *)
Record Queued := mkQueued {
  q_phoneNumber : option jsstring;
  q_message : option jsstring
}.

(** A record of [data/sms_logs.json]. *)
Record LogEntry := mkLogEntry {
  log_transmissionId : string;
  log_phoneNumber : option jsstring;
  log_success : bool;
  log_timestamp : string;
  log_method : string
}.

(** The content of [logs/transmission_<id>.json]. *)
Record LogDetail := mkLogDetail {
  detail_result : TxResult;
  detail_timestamp : string;
  detail_systemStats : SystemStats
}.

(** A record of [logs/health.json]. *)
Record HealthSample := mkHealthSample {
  health_memory : Z;
  health_uptime : Z;
  health_sessions : nat;
  health_queue : nat;
  health_timestamp : Z
}.

(** The fields of the gateway the engine works on, the two JSON files it
    caps ([None]: the file does not exist), the per-transmission files and
    the retry timers that [sendSMS] has armed and that have not fired. *)
Record Gateway := mkGateway {
  userSessions : gmap Z Session;
  transmissionQueue : list Queued;
  systemStats : SystemStats;
  sms_logs : option (list LogEntry);
  transmission_files : gmap string LogDetail;
  health_log : option (list HealthSample);
  retryTimers : list SessionData
}.

Definition with_sessions (g : Gateway) (m : gmap Z Session) : Gateway :=
  mkGateway m (transmissionQueue g) (systemStats g) (sms_logs g)
    (transmission_files g) (health_log g) (retryTimers g).

Definition with_stats (g : Gateway) (st : SystemStats) : Gateway :=
  mkGateway (userSessions g) (transmissionQueue g) st (sms_logs g)
    (transmission_files g) (health_log g) (retryTimers g).

Definition with_queue (g : Gateway) (q : list Queued) : Gateway :=
  mkGateway (userSessions g) q (systemStats g) (sms_logs g)
    (transmission_files g) (health_log g) (retryTimers g).

Definition with_timers (g : Gateway) (ts : list SessionData) : Gateway :=
  mkGateway (userSessions g) (transmissionQueue g) (systemStats g) (sms_logs g)
    (transmission_files g) (health_log g) ts.

(** The gateway after the constructor and [initDatabase] on an empty
    directory: [sms_logs.json] holds [[]], [health.json] is yet to be
    written. *)
Definition initial (start : Z) : Gateway :=
  {| userSessions := ∅;
     transmissionQueue := [];
     systemStats := mkSystemStats 0 0 0 0 0 start;
     sms_logs := Some [];
     transmission_files := ∅;
     health_log := None;
     retryTimers := [] |}.

(** What the user is sent.  The wording of the messages is not modelled;
    each constructor is one call site of [ctx.reply] or
    [ctx.editMessageText], with the values it interpolates. *)
Inductive Reply :=
| Welcome
| SingleSmsPrompt
| BulkSmsPrompt
| ScheduleSmsPrompt
| InvalidPhoneNumber (message : string)
| PhoneNumberAccepted (phoneNumber : jsstring) (country : string)
| InvalidMessage (message : string)
| MessagePreview (to : option jsstring) (message : jsstring) (parts : nat)
    (country : option string) (method : option string)
| Edited (text : string)
| SessionExpired
| ProcessingTransmission
| TransmissionSuccessful (result : TxResult)
| TransmissionRequiresRetry (result : TxResult)
| CriticalTransmissionError (message : string)
| AutoRecoverySuccessful (transmissionId : string)
| QuickTemplates
| SystemStatus (stats : SystemStats) (sessions queue : nat)
| Help
| Settings
| AnErrorOccurred.

(** The two replies that report a validation failure. *)
Definition is_validation_failure (r : Reply) : bool :=
  match r with
  | InvalidPhoneNumber _ | InvalidMessage _ => true
  | _ => false
  end.

(** One handler run: how it completed, the gateway it left, what it sent. *)
Record Turn := mkTurn {
  outcome : completion unit;
  after : Gateway;
  replies : list Reply
}.

Definition finished (g : Gateway) (rs : list Reply) : Turn :=
  mkTurn (Returns tt) g rs.

Definition raised (e : Error) (g : Gateway) (rs : list Reply) : Turn :=
  mkTurn (Throws e) g rs.

(* ===================================================================== *)
(** ** Bounded log store                                                  *)
(* ===================================================================== *)

(** [array.slice(start)]: a negative [start] counts from the end. *)
Definition slice {A} (array : list A) (start : Z) : list A :=
  let len := Z.of_nat (length array) in
  let k := if (start <? 0)%Z then Z.max (len + start) 0 else Z.min start len in
  drop (Z.to_nat k) array.

(** The part of [logTransmission] that rewrites [data/sms_logs.json]. *)
Definition append_sms_log (file : option (list LogEntry)) (entry : LogEntry)
    : list LogEntry :=
  let logs := match file with Some logs => logs | None => [] end in
  let logs := app logs [entry] in
  if (10000 <? Z.of_nat (length logs))%Z then slice logs (-10000) else logs.

Definition logTransmission (h : Host) (g : Gateway) (result : TxResult) : Gateway :=
  let logEntry := mkLogDetail result (isoTime h) (systemStats g) in
  let files :=
    <[tx_transmissionId result := logEntry]> (transmission_files g) in
  let entry :=
    {| log_transmissionId := tx_transmissionId result;
       log_phoneNumber := tx_phoneNumber result;
       log_success := tx_success result;
       log_timestamp := isoTime h;
       log_method := tx_method result |} in
  mkGateway (userSessions g) (transmissionQueue g) (systemStats g)
    (Some (append_sms_log (sms_logs g) entry))
    files (health_log g) (retryTimers g).

(** The part of [checkSystemHealth] that rewrites [logs/health.json]. *)
Definition append_health_log (file : option (list HealthSample))
    (health : HealthSample) : list HealthSample :=
  let healthLog := match file with Some log => log | None => [] end in
  let healthLog := app healthLog [health] in
  if (1000 <? Z.of_nat (length healthLog))%Z then slice healthLog (-1000)
  else healthLog.

Definition checkSystemHealth (h : Host) (g : Gateway) : Gateway :=
  let health :=
    {| health_memory := heapUsed h;
       health_uptime := uptime h;
       health_sessions := size (userSessions g);
       health_queue := length (transmissionQueue g);
       health_timestamp := clock h |} in
  mkGateway (userSessions g) (transmissionQueue g) (systemStats g)
    (sms_logs g) (transmission_files g)
    (Some (append_health_log (health_log g) health)) (retryTimers g).

(* ===================================================================== *)
(** ** Session state machine                                              *)
(* ===================================================================== *)

Definition start_session (h : Host) (g : Gateway) (userId : Z)
    (first_step session_mode : string) : Gateway :=
  with_sessions g
    (<[userId := mkSession first_step session_mode emptyData (clock h)]>
       (userSessions g)).

Definition initiateSingleSMS (h : Host) (g : Gateway) (userId : Z) : Turn :=
  finished (start_session h g userId "awaiting_number" "SINGLE")
    [SingleSmsPrompt].

Definition initiateBulkSMS (h : Host) (g : Gateway) (userId : Z) : Turn :=
  finished (start_session h g userId "awaiting_bulk_numbers" "BULK")
    [BulkSmsPrompt].

Definition initiateScheduleSMS (h : Host) (g : Gateway) (userId : Z) : Turn :=
  finished (start_session h g userId "awaiting_schedule_time" "SCHEDULED")
    [ScheduleSmsPrompt].

(** [selectTransmissionMethod], the method shown in the preview. *)
Definition selectTransmissionMethod (h : Host) (d : SessionData) : option string :=
  at_floor config.TRANSMISSION_METHODS
    (previewDraw h * inject_Z (Z.of_nat (length config.TRANSMISSION_METHODS)))%number.

(** [processPhoneNumber]; [session] is the object stored under [userId],
    so writing its fields rewrites the entry of the map. *)
Definition processPhoneNumber (h : Host) (g : Gateway) (userId : Z)
    (phoneNumber : jsstring) (session : Session) : Turn :=
  let validation := validatePhoneNumber phoneNumber in
  if negb (pv_valid validation) then
    finished g [InvalidPhoneNumber (pv_message validation)]
  else
    let d := data session in
    let d := mkSessionData (Some phoneNumber) (Some (pv_country validation))
               (sd_message d) (sd_messageParts d) in
    let session := mkSession "awaiting_message" (mode session) d
                     (timestamp session) in
    finished (with_sessions g (<[userId := session]> (userSessions g)))
      [PhoneNumberAccepted phoneNumber (pv_country validation)].

Definition processMessage (h : Host) (g : Gateway) (userId : Z)
    (message : jsstring) (session : Session) : Turn :=
  let validation := validateMessage message in
  if negb (mv_valid validation) then
    finished g [InvalidMessage (mv_message validation)]
  else
    let d := data session in
    let d := mkSessionData (sd_phoneNumber d) (sd_country d)
               (Some message) (Some (splitMessage message)) in
    let session := mkSession "confirm_send" (mode session) d
                     (timestamp session) in
    finished (with_sessions g (<[userId := session]> (userSessions g)))
      [MessagePreview (sd_phoneNumber d) message (length (splitMessage message))
         (sd_country d) (selectTransmissionMethod h d)].

(** [handleTextMessage].  The class has no member called
    [processBulkNumbers], [processBulkMessages], [processScheduleTime] or
    [processScheduleMessage]: the four calls read [undefined] and apply
    it. *)
Definition handleTextMessage (h : Host) (g : Gateway) (userId : Z)
    (text : jsstring) : Turn :=
  match userSessions g !! userId with
  | None => finished g []
  | Some session =>
      if String.eqb (step session) "awaiting_number" then
        processPhoneNumber h g userId text session
      else if String.eqb (step session) "awaiting_message" then
        processMessage h g userId text session
      else if String.eqb (step session) "awaiting_bulk_numbers" then
        raised (not_a_function "this.processBulkNumbers") g []
      else if String.eqb (step session) "awaiting_bulk_messages" then
        raised (not_a_function "this.processBulkMessages") g []
      else if String.eqb (step session) "awaiting_schedule_time" then
        raised (not_a_function "this.processScheduleTime") g []
      else if String.eqb (step session) "awaiting_schedule_message" then
        raised (not_a_function "this.processScheduleMessage") g []
      else finished g []
  end.

(* ===================================================================== *)
(** ** Interactive send and its retry                                     *)
(* ===================================================================== *)

(** The counter updates of [sendSMS] once the result is known. *)
Definition count_attempt (st : SystemStats) (result : TxResult) : SystemStats :=
  let st := mkSystemStats (totalSMS st + 1) (successful st) (failed st)
              (activeUsers st) (queueSize st) (stats_startTime st) in
  if tx_success result then
    mkSystemStats (totalSMS st) (successful st + 1) (failed st)
      (activeUsers st) (queueSize st) (stats_startTime st)
  else
    mkSystemStats (totalSMS st) (successful st) (failed st + 1)
      (activeUsers st) (queueSize st) (stats_startTime st).

(** The counter updates of [retryTransmission] once the result is known. *)
Definition count_retry (st : SystemStats) (result : TxResult) : SystemStats :=
  if tx_success result then
    mkSystemStats (totalSMS st) (successful st + 1) (failed st - 1)
      (activeUsers st) (queueSize st) (stats_startTime st)
  else st.

(** [sendSMS] from the point where [processSMSTransmission] has returned
    [result]: counters, the armed retry, the reply, the session, the log. *)
Definition sendSMS_with (h : Host) (g : Gateway) (userId : Z)
    (session : Session) (result : TxResult) : Turn :=
  let g := with_stats g (count_attempt (systemStats g) result) in
  let g :=
    if tx_success result then g
    else with_timers g (app (retryTimers g) [data session]) in
  let resultMessage :=
    if tx_success result then TransmissionSuccessful result
    else TransmissionRequiresRetry result in
  let g := with_sessions g (delete userId (userSessions g)) in
  let g := logTransmission h g result in
  finished g [ProcessingTransmission; resultMessage].

Definition sendSMS (h : Host) (g : Gateway) (userId : Z) : Turn :=
  match userSessions g !! userId with
  | None => finished g [SessionExpired]
  | Some session =>
      match processSMSTransmission h (sd_phoneNumber (data session))
              (sd_message (data session)) with
      | Returns result => sendSMS_with h g userId session result
      | Throws error =>
          finished g
            [ProcessingTransmission; CriticalTransmissionError (err_message error)]
      end
  end.

(** [retryTransmission] from the point where [processSMSTransmission] has
    returned [result]. *)
Definition retryTransmission_with (g : Gateway) (result : TxResult)
    : Gateway * TxResult :=
  (with_stats g (count_retry (systemStats g) result), result).

Definition retryTransmission (h : Host) (g : Gateway) (smsData : SessionData)
    : completion (Gateway * TxResult) :=
  bind (processSMSTransmission h (sd_phoneNumber smsData) (sd_message smsData))
    (fun result => Returns (retryTransmission_with g result)).

(** The callback [sendSMS] hands to [setTimeout]: the oldest armed retry
    fires. *)
Definition retry_timer (h : Host) (g : Gateway) : Turn :=
  match retryTimers g with
  | [] => finished g []
  | smsData :: armed =>
      let g := with_timers g armed in
      match retryTransmission h g smsData with
      | Returns (g, retryResult) =>
          finished g
            (if tx_success retryResult
             then [AutoRecoverySuccessful (tx_transmissionId retryResult)]
             else [])
      | Throws error => raised error g []
      end
  end.

(* ===================================================================== *)
(** ** Buttons                                                            *)
(* ===================================================================== *)

(** [this.userSessions.get(userId).step = value] *)
Definition set_step (g : Gateway) (userId : Z) (value : string)
    : completion Gateway :=
  match userSessions g !! userId with
  | None =>
      Throws (mkError "TypeError"
                "Cannot set properties of undefined (setting 'step')")
  | Some session =>
      Returns
        (with_sessions g
           (<[userId := mkSession value (mode session) (data session)
                          (timestamp session)]> (userSessions g)))
  end.

Definition handleCallbackQuery (h : Host) (g : Gateway) (userId : Z)
    (action : string) : Turn :=
  if String.eqb action "country_92" then finished g [Edited "country_92"]
  else if String.eqb action "country_1" then finished g [Edited "country_1"]
  else if String.eqb action "country_971" then finished g [Edited "country_971"]
  else if String.eqb action "country_966" then finished g [Edited "country_966"]
  else if String.eqb action "country_all" then finished g [Edited "country_all"]
  else if String.eqb action "send_immediate" then sendSMS h g userId
  else if String.eqb action "send_schedule" then
    raised (not_a_function "this.scheduleSMS") g []
  else if String.eqb action "edit_message" then
    match set_step g userId "awaiting_message" with
    | Returns g => finished g [Edited "Enter new message:"]
    | Throws e => raised e g []
    end
  else if String.eqb action "change_number" then
    match set_step g userId "awaiting_number" with
    | Returns g => finished g [Edited "Enter new phone number:"]
    | Throws e => raised e g []
    end
  else if String.eqb action "show_templates" then finished g [QuickTemplates]
  else if String.eqb action "upload_bulk" then finished g [Edited "upload_bulk"]
  else if String.eqb action "manual_bulk" then
    match set_step g userId "awaiting_bulk_numbers" with
    | Returns g => finished g [Edited "manual_bulk"]
    | Throws e => raised e g [Edited "manual_bulk"]
    end
  else if String.eqb action "show_calendar" then
    raised (not_a_function "this.showCalendar") g []
  else if String.eqb action "schedule_5min" then
    raised (not_a_function "this.scheduleIn5Minutes") g []
  else if String.eqb action "cancel" then
    finished (with_sessions g (delete userId (userSessions g)))
      [Edited "Operation cancelled."]
  else finished g [].

(* ===================================================================== *)
(** ** Queue drain and maintenance                                        *)
(* ===================================================================== *)

(** [processTransmissionQueue]: [splice(0, 10)] takes the batch out of the
    queue; each element goes through [processSMSTransmission] and what
    comes back, result or exception, is dropped. *)
Definition processTransmissionQueue (h : Host) (g : Gateway) : Gateway :=
  if (length (transmissionQueue g) =? 0)%nat then g
  else
    let batch := take 10 (transmissionQueue g) in
    let g := with_queue g (drop 10 (transmissionQueue g)) in
    fold_left
      (fun g transmission =>
         match processSMSTransmission h (q_phoneNumber transmission)
                 (q_message transmission) with
         | Returns _ => g
         | Throws _ => g
         end)
      batch g.

(** [cleanupOldSessions]: sessions older than five minutes are deleted. *)
Definition expired (now : Z) (session : Session) : bool :=
  (300000 <? now - timestamp session)%Z.

Definition cleanupOldSessions (h : Host) (g : Gateway) : Gateway :=
  with_sessions g
    (filter (fun entry => expired (clock h) (snd entry) = false) (userSessions g)).

(** The monitoring interval: [cleanupOldSessions], [backupSystem] (copies
    of the data files into a directory of their own, outside the state
    kept here) and [checkSystemHealth]. *)
Definition monitoring_tick (h : Host) (g : Gateway) : Gateway :=
  checkSystemHealth h (cleanupOldSessions h g).

(* ===================================================================== *)
(** ** Everything that can happen to a running gateway                    *)
(* ===================================================================== *)

(** The updates [setupBotCommands] subscribes to.  A command and the
    keyboard text that [hears] maps to the same handler are one
    constructor. *)
Inductive Update :=
| CmdStart
| CmdSend
| CmdBulk
| CmdSchedule
| CmdTemplates
| CmdStatus
| CmdHelp
| CmdSettings
| CmdBroadcast
| Text (text : jsstring)
| CallbackQuery (action : string).

Definition handle_update (h : Host) (g : Gateway) (userId : Z) (u : Update) : Turn :=
  match u with
  | CmdStart => finished g [Welcome]
  | CmdSend => initiateSingleSMS h g userId
  | CmdBulk => initiateBulkSMS h g userId
  | CmdSchedule => initiateScheduleSMS h g userId
  | CmdTemplates => raised (not_a_function "this.showTemplates") g []
  | CmdStatus =>
      finished g
        [SystemStatus (systemStats g) (size (userSessions g))
           (length (transmissionQueue g))]
  | CmdHelp => finished g [Help]
  | CmdSettings => finished g [Settings]
  | CmdBroadcast => raised (not_a_function "this.initiateBroadcast") g []
  | Text text => handleTextMessage h g userId text
  | CallbackQuery action => handleCallbackQuery h g userId action
  end.

(** The handler given to [bot.catch]: an exception that leaves a handler
    is answered with a generic error message. *)
Definition bot_catch (t : Turn) : Turn :=
  match outcome t with
  | Returns _ => t
  | Throws _ => mkTurn (outcome t) (after t) (app (replies t) [AnErrorOccurred])
  end.

Inductive Event :=
| FromUser (userId : Z) (u : Update)
| RetryTimer
| QueueTick
| MonitoringTick
| OptimizationTick.

Definition handle (h : Host) (g : Gateway) (e : Event) : Turn :=
  match e with
  | FromUser userId u => bot_catch (handle_update h g userId u)
  | RetryTimer => retry_timer h g
  | QueueTick => finished (processTransmissionQueue h g) []
  | MonitoringTick => finished (monitoring_tick h g) []
  | OptimizationTick => finished g []
  end.

(** A run of the gateway: each event comes with the host readings of its
    handler. *)
Fixpoint run (g : Gateway) (events : list (Host * Event)) : Gateway :=
  match events with
  | [] => g
  | (h, e) :: rest => run (after (handle h g e)) rest
  end.

(* ===================================================================== *)
(** ** Definitions that follow the specification's wording               *)
(* ===================================================================== *)

(** [ceil(a / b)] on naturals. *)
Definition ceil_div (a b : nat) : nat := (a + b - 1) / b.

(** Longest-prefix match over a table, as the specification words it: of
    the entries whose prefix the number starts with, one with the longest
    prefix. *)
Fixpoint longest_match (table : list (jsstring * string))
    (phoneNumber : jsstring) : option (jsstring * string) :=
  match table with
  | [] => None
  | (code, country) :: rest =>
      let later := longest_match rest phoneNumber in
      if startsWith phoneNumber code then
        match later with
        | Some (code', _) =>
            if (length code <? length code')%nat then later
            else Some (code, country)
        | None => Some (code, country)
        end
      else later
  end.

Definition longest_prefix_country (table : list (jsstring * string))
    (phoneNumber : jsstring) : string :=
  match longest_match table phoneNumber with
  | Some (_, country) => country
  | None => "INTERNATIONAL"
  end.

(** The records of a JSON file; a file that does not exist has none. *)
Definition records {A} (file : option (list A)) : list A :=
  match file with
  | Some l => l
  | None => []
  end.

(** The events of the interactive send path: the Send Now button and the
    retry it arms. *)
Definition on_send_path (e : Event) : bool :=
  match e with
  | FromUser _ (CallbackQuery action) => String.eqb action "send_immediate"
  | RetryTimer => true
  | _ => false
  end.

(** A text turn as an event of a run. *)
Definition text_event (turn : Host * Z * jsstring) : Host * Event :=
  let '(h, sender, text) := turn in (h, FromUser sender (Text text)).

(** No session of the map is at the second step of the BULK or of the
    SCHEDULED flow. *)
Definition second_step_free (m : gmap Z Session) : Prop :=
  forall userId session,
    m !! userId = Some session ->
    step session <> "awaiting_bulk_messages"
    /\ step session <> "awaiting_schedule_message".

(** The steps the BULK and SCHEDULED flows hand to the text handler. *)
Definition bulk_or_schedule_step (s : string) : bool :=
  String.eqb s "awaiting_bulk_numbers" || String.eqb s "awaiting_bulk_messages"
  || String.eqb s "awaiting_schedule_time"
  || String.eqb s "awaiting_schedule_message".

(* ===================================================================== *)
(** ** Sample values used by the examples                                 *)
(* ===================================================================== *)

(** The profile of ["+923001234567"] and ["Hello"]. *)
Definition pakistan_profile : Optimization :=
  {| opt_phoneNumber := lit "+923001234567";
     opt_country := "PAKISTAN";
     opt_messageLength := 5;
     opt_parts := 1;
     opt_encoding := "GSM_7BIT";
     opt_priority := dbl 1.2;
     opt_bestRoute := "QUANTUM_PAKISTAN_HUB";
     opt_transmissionWindow := "STANDARD_WINDOW";
     opt_successProbability := dbl 0.9075 |}.

(** The profile of ["+12345678900"] and ["Hello"]. *)
Definition usa_profile : Optimization :=
  {| opt_phoneNumber := lit "+12345678900";
     opt_country := "USA";
     opt_messageLength := 5;
     opt_parts := 1;
     opt_encoding := "GSM_7BIT";
     opt_priority := dbl 1.1;
     opt_bestRoute := "SATELLITE_US_NET";
     opt_transmissionWindow := "STANDARD_WINDOW";
     opt_successProbability := dbl 0.865 |}.

Definition quiet_host : Host :=
  {| unicodeLower := fun s => s;
     transmissionIdDraw := "TX_0";
     startTime := 0; endTime := 800; hours := 12;
     scoreDraw := fun _ => 0.5%Q;
     encryptionTime := 0;
     routeDraw := 0%Q; signalDraw := 0.5%Q; deliveryClock := 0;
     entanglementDraw := 0.5%Q; previewDraw := 0%Q;
     isoTime := "2024-01-15T14:30:00.000Z";
     clock := 0; heapUsed := 0; uptime := 0 |}.

(** A queue of twelve requests with [undefined] fields, in a gateway that
    has counted and logged one send. *)
Definition backlog : Gateway :=
  {| userSessions := ∅;
     transmissionQueue := repeat (mkQueued None None) 12;
     systemStats := mkSystemStats 1 1 0 0 0 0;
     sms_logs := Some [mkLogEntry "TX_2" None true "t" "QUANTUM_TUNNELING"];
     transmission_files := ∅;
     health_log := None;
     retryTimers := [] |}.

(** A full [sms_logs.json]: one oldest record and 9,999 later ones. *)
Definition oldest_record : LogEntry :=
  mkLogEntry "TX_oldest" None true "t0" "QUANTUM_TUNNELING".

Definition later_record : LogEntry :=
  mkLogEntry "TX_later" None true "t1" "QUANTUM_TUNNELING".

Definition newest_record : LogEntry :=
  mkLogEntry "TX_newest" None true "t2" "WAVE_FUNCTION_TRANSMISSION".

Definition full_log : list LogEntry :=
  oldest_record :: repeat later_record (Z.to_nat 9999).

(** The gateway after user 7 has sent [/send] and a number, and after the
    message as well. *)
Definition number_entered : Gateway :=
  run (initial 0)
    [ (quiet_host, FromUser 7 CmdSend);
      (quiet_host, FromUser 7 (Text (lit "+923001234567"))) ].

Definition ready_to_send : Gateway :=
  run number_entered [ (quiet_host, FromUser 7 (Text (lit "Hello"))) ].

(** A message of 321 units, no two alike. *)
Definition long_message : jsstring := map N.of_nat (seq 0 321).

(** The gateway right after user 7 has sent [/bulk]. *)
Definition bulk_started : Gateway :=
  after (handle quiet_host (initial 0) (FromUser 7 CmdBulk)).

(** Both capped files are within their caps. *)
Definition logs_within_caps (g : Gateway) : Prop :=
  (Z.of_nat (length (records (sms_logs g))) <= 10000)%Z
  /\ (Z.of_nat (length (records (health_log g))) <= 1000)%Z.

(* ===================================================================== *)
(** ** Reference definitions for further properties                       *)
(* ===================================================================== *)

(** The polynomial [c0 * 31^(n-1) + c1 * 31^(n-2) + ... + c(n-1)] of a
    string, by Horner's rule. *)
Definition poly31 (data : jsstring) : Z :=
  fold_left (fun acc char => (31 * acc + Z.of_N char)%Z) data 0%Z.

(** The first step and the mode of the flow a command starts. *)
Definition flow_start (u : Update) : option (string * string) :=
  match u with
  | CmdSend => Some ("awaiting_number", "SINGLE")
  | CmdBulk => Some ("awaiting_bulk_numbers", "BULK")
  | CmdSchedule => Some ("awaiting_schedule_time", "SCHEDULED")
  | _ => None
  end.

(** The step a button writes into the session, if it writes one. *)
Definition button_step (action : string) : option string :=
  if String.eqb action "edit_message" then Some "awaiting_message"
  else if String.eqb action "change_number" then Some "awaiting_number"
  else if String.eqb action "manual_bulk" then Some "awaiting_bulk_numbers"
  else None.

(** What one event can do to the session of user [u]: the ways in which
    the handlers write the session map, one constructor per way. *)
Inductive session_change (h : Host) (e : Event) (u : Z)
  : option Session -> option Session -> Prop :=
| unchanged o : session_change h e u o o
| started upd first md o :
    e = FromUser u upd ->
    flow_start upd = Some (first, md) ->
    session_change h e u o (Some (mkSession first md emptyData (clock h)))
| phone_accepted s p :
    e = FromUser u (Text p) ->
    step s = "awaiting_number" ->
    pv_valid (validatePhoneNumber p) = true ->
    session_change h e u (Some s)
      (Some (mkSession "awaiting_message" (mode s)
               (mkSessionData (Some p) (Some (detectCountry p))
                  (sd_message (data s)) (sd_messageParts (data s)))
               (timestamp s)))
| message_accepted s m :
    e = FromUser u (Text m) ->
    step s = "awaiting_message" ->
    mv_valid (validateMessage m) = true ->
    session_change h e u (Some s)
      (Some (mkSession "confirm_send" (mode s)
               (mkSessionData (sd_phoneNumber (data s)) (sd_country (data s))
                  (Some m) (Some (splitMessage m)))
               (timestamp s)))
| button_pressed s action v :
    e = FromUser u (CallbackQuery action) ->
    button_step action = Some v ->
    session_change h e u (Some s)
      (Some (mkSession v (mode s) (data s) (timestamp s)))
| closed s action :
    e = FromUser u (CallbackQuery action) ->
    action = "cancel" \/ action = "send_immediate" ->
    session_change h e u (Some s) None
| purged s :
    e = MonitoringTick ->
    expired (clock h) s = true ->
    session_change h e u (Some s) None.

(** What a session holds has gone through the validators. *)
Definition data_validated (d : SessionData) : Prop :=
  match sd_phoneNumber d with
  | Some p => pv_valid (validatePhoneNumber p) = true
              /\ sd_country d = Some (detectCountry p)
  | None => sd_country d = None
  end
  /\ match sd_message d with
     | Some m => mv_valid (validateMessage m) = true
                 /\ sd_messageParts d = Some (splitMessage m)
     | None => sd_messageParts d = None
     end.

Definition session_wellformed (s : Session) : Prop :=
  In (mode s) ["SINGLE"; "BULK"; "SCHEDULED"]
  /\ In (step s) ["awaiting_number"; "awaiting_message"; "confirm_send";
                  "awaiting_bulk_numbers"; "awaiting_schedule_time"]
  /\ data_validated (data s)
  /\ (step s = "confirm_send" -> is_Some (sd_message (data s))).

(** A retry whose data lack the phone number or the message. *)
Definition retry_doomed (d : SessionData) : Prop :=
  sd_phoneNumber d = None \/ sd_message d = None.

(** The counters add up, no retry that is armed can succeed, and the log
    has one record per counted attempt up to its cap. *)
Definition accounts_balanced (g : Gateway) : Prop :=
  (successful (systemStats g) + failed (systemStats g)
   = totalSMS (systemStats g))%Z
  /\ (0 <= successful (systemStats g))%Z
  /\ (0 <= failed (systemStats g))%Z
  /\ Forall retry_doomed (retryTimers g)
  /\ Z.of_nat (length (records (sms_logs g)))
     = Z.min (totalSMS (systemStats g)) 10000.

(** A queue-drain tick as an event of a run. *)
Definition drain_event (h : Host) : Host * Event := (h, QueueTick).

(* ===================================================================== *)
(** ** User registry ([data/users.json])                                  *)
(* ===================================================================== *)

(** [ctx.from], the sender of an update. *)
Record TelegramUser := mkTelegramUser {
  from_id : Z;
  from_username : option string;
  from_first_name : option string;
  from_last_name : option string;
  from_language_code : option string;
  from_is_bot : bool
}.

Record UserRecord := mkUserRecord {
  user_id : Z;
  user_username : option string;
  user_firstName : option string;
  user_lastName : option string;
  user_language : option string;
  user_isBot : bool;
  user_joinedAt : string;
  user_totalSMS : Z;
  user_lastActive : string
}.

(** [user.lastActive = now] *)
Definition set_lastActive (now : string) (u : UserRecord) : UserRecord :=
  mkUserRecord (user_id u) (user_username u) (user_firstName u)
    (user_lastName u) (user_language u) (user_isBot u) (user_joinedAt u)
    (user_totalSMS u) now.

(** [existingUser.lastActive = now] on the element [users.find] returned,
    the first one with the id. *)
Fixpoint touch_first (id : Z) (now : string) (users : list UserRecord)
  : list UserRecord :=
  match users with
  | [] => []
  | u :: rest =>
      if (user_id u =? id)%Z then set_lastActive now u :: rest
      else u :: touch_first id now rest
  end.

(** The record at index [i] is the one [users.find] returns for [id]. *)
Definition found_at (id : Z) (users : list UserRecord) (i : nat) : Prop :=
  (exists u, users !! i = Some u /\ user_id u = id)
  /\ forall j v, j < i -> users !! j = Some v -> user_id v <> id.

(** [registerUser]: the content it writes to [users.json].  [joined] and
    [active] are the two readings of [new Date().toISOString()] of the
    branch that adds a user; the other branch reads the clock once, into
    [active]. *)
Definition registerUser (joined active : string)
    (file : option (list UserRecord)) (userData : TelegramUser)
  : list UserRecord :=
  let users := match file with Some users => users | None => [] end in
  match find (fun u => (user_id u =? from_id userData)%Z) users with
  | None =>
      let newUser :=
        {| user_id := from_id userData;
           user_username := from_username userData;
           user_firstName := from_first_name userData;
           user_lastName := from_last_name userData;
           user_language := from_language_code userData;
           user_isBot := from_is_bot userData;
           user_joinedAt := joined;
           user_totalSMS := 0;
           user_lastActive := active |} in
      app users [newUser]
  | Some existingUser => touch_first (from_id userData) active users
  end.

(* ===================================================================== *)
(** * Properties                                                          *)
(* ===================================================================== *)

Local Open Scope list_scope.

(** ** Numbers *)

(** Rounding at work: [0.1 + 0.2] is not the number [0.3], [0.7 + 0.2] is
    one unit in the last place below [0.9], and [0.8 + 0.1] is [0.9]. *)
Example double_sums :
  (add (dbl 0.1) (dbl 0.2) == dbl 0.30000000000000004
   /\ ~ add (dbl 0.1) (dbl 0.2) == dbl 0.3
   /\ add (dbl 0.7) (dbl 0.2) == dbl 0.9 - (1 # 9007199254740992)
   /\ add (dbl 0.8) (dbl 0.1) == dbl 0.9)%Q.
Proof.
  repeat split; try (apply Qeq_bool_iff; vm_compute; reflexivity).
  intros H. apply Qeq_bool_iff in H. vm_compute in H. discriminate.
Qed.

(** A number that is already binary64 is left as it is. *)
Example double_fixed_points :
  (double (dbl 0.2) == dbl 0.2 /\ double (1 # 2) == 1 # 2 /\ double 3 == 3)%Q.
Proof. repeat split. Qed.

(** ** Strings *)

Lemma startsWith_app (p rest : jsstring) : startsWith (p ++ rest) p = true.
Proof.
  induction p as [|c p IH]; simpl; [reflexivity|].
  rewrite N.eqb_refl. exact IH.
Qed.

Lemma startsWith_inv (s p : jsstring) :
  startsWith s p = true -> exists rest, s = p ++ rest.
Proof.
  revert s. induction p as [|c p IH]; intros s H.
  - exists s. reflexivity.
  - destruct s as [|d s]; simpl in H; [discriminate|].
    apply andb_prop in H as [Hc Hs]. apply N.eqb_eq in Hc. subst d.
    destruct (IH _ Hs) as [rest ->]. exists rest. reflexivity.
Qed.

Lemma substring_chunk (m : jsstring) (i : nat) :
  substring m i (i + maxLength) = take maxLength (drop i m).
Proof.
  unfold substring, maxLength.
  destruct (le_lt_dec (length m) i) as [Hle|Hlt].
  - rewrite (drop_ge m i) by lia.
    replace (Nat.min i (length m)) with (length m) by lia.
    replace (Nat.min (i + 160) (length m)) with (length m) by lia.
    rewrite Nat.min_id, Nat.max_id, Nat.sub_diag, drop_all. reflexivity.
  - replace (Nat.min i (length m)) with i by lia.
    destruct (le_lt_dec (i + 160) (length m)) as [Hfull|Hshort].
    + replace (Nat.min (i + 160) (length m)) with (i + 160) by lia.
      replace (Nat.min i (i + 160)) with i by lia.
      replace (Nat.max i (i + 160) - i) with 160 by lia. reflexivity.
    + replace (Nat.min (i + 160) (length m)) with (length m) by lia.
      replace (Nat.min i (length m)) with i by lia.
      replace (Nat.max i (length m) - i) with (length m - i) by lia.
      rewrite !take_ge; [reflexivity| |]; rewrite length_drop; lia.
Qed.

(** ** [splitMessage] *)

Lemma ceil_div_step (a : nat) :
  0 < a -> ceil_div a maxLength = S (ceil_div (a - maxLength) maxLength).
Proof.
  unfold ceil_div, maxLength. intros Ha.
  destruct (le_lt_dec a 160) as [Hle|Hlt].
  - replace (a - 160) with 0 by lia. simpl (0 + 160 - 1).
    rewrite (Nat.div_small 159 160) by lia.
    assert (H : (a + 160 - 1) / 160 = 1).
    { symmetry. apply (Nat.div_unique _ 160 1 (a - 1)); lia. }
    exact H.
  - replace (a + 160 - 1) with ((a - 160 + 160 - 1) + 1 * 160) by lia.
    rewrite Nat.div_add by lia. lia.
Qed.

Lemma ceil_div_least (a n : nat) :
  ceil_div a maxLength <= n <-> a <= maxLength * n.
Proof.
  unfold ceil_div, maxLength.
  pose proof (Nat.div_mod_eq (a + 160 - 1) 160) as E.
  pose proof (Nat.mod_upper_bound (a + 160 - 1) 160) as B.
  remember ((a + 160 - 1) / 160) as q. remember ((a + 160 - 1) mod 160) as r.
  lia.
Qed.

Lemma splitMessage_loop_concat (m : jsstring) (i : nat) (parts : list jsstring) :
  concat (splitMessage_loop m i parts) = concat parts ++ drop i m.
Proof.
  funelim (splitMessage_loop m i parts).
  - match goal with IH : concat _ = _ |- _ => rewrite IH end.
    rewrite concat_app, substring_chunk. simpl. rewrite app_nil_r, <- app_assoc.
    f_equal. rewrite <- (take_drop maxLength (drop i message)) at 2.
    rewrite drop_drop. reflexivity.
  - rewrite (drop_ge message i) by lia. rewrite app_nil_r. reflexivity.
Qed.

Lemma splitMessage_loop_length (m : jsstring) (i : nat) (parts : list jsstring) :
  length (splitMessage_loop m i parts)
  = length parts + ceil_div (length m - i) maxLength.
Proof.
  funelim (splitMessage_loop m i parts).
  - match goal with IH : length _ = _ |- _ => rewrite IH end.
    rewrite (ceil_div_step (length message - i)) by lia.
    replace (length message - (i + maxLength))
      with (length message - i - maxLength) by lia.
    rewrite length_app. cbn [length]. lia.
  - replace (length message - i) with 0 by lia.
    unfold ceil_div, maxLength. simpl (0 + 160 - 1).
    rewrite (Nat.div_small 159 160) by lia. lia.
Qed.

Lemma splitMessage_loop_bounded (m : jsstring) (i : nat) (parts : list jsstring) :
  Forall (fun part => length part <= maxLength) parts ->
  Forall (fun part => length part <= maxLength) (splitMessage_loop m i parts).
Proof.
  funelim (splitMessage_loop m i parts); intros Hparts.
  - match goal with IH : _ -> Forall _ _ |- _ => apply IH end.
    apply Forall_app. split; [exact Hparts|].
    constructor; [|constructor].
    rewrite substring_chunk, length_take. lia.
  - exact Hparts.
Qed.

(** C6: [splitMessage m] has [ceil(len(m)/160)] pieces, each of at most 160
    code units, and their concatenation in order is [m]. *)
Theorem splitMessage_pieces (m : jsstring) :
  length (splitMessage m) = ceil_div (length m) 160
  /\ Forall (fun piece => length piece <= 160) (splitMessage m)
  /\ concat (splitMessage m) = m.
Proof.
  unfold splitMessage. split; [|split].
  - rewrite splitMessage_loop_length. simpl. rewrite Nat.sub_0_r. reflexivity.
  - apply (splitMessage_loop_bounded m 0 []). constructor.
  - rewrite splitMessage_loop_concat. reflexivity.
Qed.

(** ** [detectCountry] *)

(** What [longest_match] returns is an entry of the table that matches and
    no matching entry has a longer prefix. *)
Lemma longest_match_some table p code country :
  longest_match table p = Some (code, country) ->
  In (code, country) table /\ startsWith p code = true
  /\ forall code' country', In (code', country') table ->
       startsWith p code' = true -> length code' <= length code.
Proof.
  revert code country.
  induction table as [|[c k] rest IH]; intros code country H; simpl in H.
  - discriminate.
  - destruct (startsWith p c) eqn:Hc.
    + destruct (longest_match rest p) as [[c' k']|] eqn:Hl.
      * destruct (Nat.ltb_spec (length c) (length c')) as [Hlt|Hge].
        -- destruct (IH _ _ H) as (Hin & Hm & Hmax).
           split; [right; exact Hin|]. split; [exact Hm|].
           intros code' country' [E|Hin'] Hm'.
           ++ inversion E; subst. inversion H; subst. lia.
           ++ eapply Hmax; eassumption.
        -- inversion H; subst. split; [left; reflexivity|]. split; [exact Hc|].
           intros code' country' [E|Hin'] Hm'.
           ++ inversion E; subst. lia.
           ++ destruct (IH _ _ eq_refl) as (_ & _ & Hmax).
              specialize (Hmax _ _ Hin' Hm'). lia.
      * inversion H; subst. split; [left; reflexivity|]. split; [exact Hc|].
        intros code' country' [E|Hin'] Hm'.
        -- inversion E; subst. lia.
        -- exfalso. clear IH H. revert Hl Hin' Hm'.
           induction rest as [|[c2 k2] rest IHr]; simpl; intros Hl Hin' Hm';
             [contradiction|].
           destruct (startsWith p c2) eqn:H2.
           ++ destruct (longest_match rest p) as [[c3 k3]|];
                [destruct (length c2 <? length c3)%nat|]; discriminate.
           ++ destruct Hin' as [E|Hin'].
              ** inversion E; subst. congruence.
              ** apply IHr; assumption.
    + destruct (IH _ _ H) as (Hin & Hm & Hmax).
      split; [right; exact Hin|]. split; [exact Hm|].
      intros code' country' [E|Hin'] Hm'.
      * inversion E; subst. congruence.
      * eapply Hmax; eassumption.
Qed.

Lemma longest_match_none table p :
  longest_match table p = None ->
  forall code country, In (code, country) table -> startsWith p code = false.
Proof.
  induction table as [|[c k] rest IH]; simpl; intros H code country Hin;
    [contradiction|].
  destruct (startsWith p c) eqn:Hc.
  - destruct (longest_match rest p) as [[c' k']|];
      [destruct (length c <? length c')%nat|]; discriminate.
  - destruct Hin as [E|Hin]; [inversion E; subst; exact Hc|].
    eapply IH; eassumption.
Qed.

(** A number that starts with one prefix of the table is decided by it. *)
Ltac decided_by H :=
  apply startsWith_inv in H; destruct H as [? ->]; reflexivity.

Lemma detectCountry_refines (p : jsstring) :
  detectCountry p = longest_prefix_country countryCodes p.
Proof.
  destruct (startsWith p (lit "+92")) eqn:H1; [decided_by H1|].
  destruct (startsWith p (lit "+1")) eqn:H2; [decided_by H2|].
  destruct (startsWith p (lit "+44")) eqn:H3; [decided_by H3|].
  destruct (startsWith p (lit "+971")) eqn:H4; [decided_by H4|].
  destruct (startsWith p (lit "+966")) eqn:H5; [decided_by H5|].
  destruct (startsWith p (lit "+91")) eqn:H6; [decided_by H6|].
  destruct (startsWith p (lit "+86")) eqn:H7; [decided_by H7|].
  unfold detectCountry, longest_prefix_country, countryCodes.
  cbn [detectCountry_in longest_match].
  rewrite H1, H2, H3, H4, H5, H6, H7. reflexivity.
Qed.

(** C7: for every phone number [detectCountry] returns the country of the
    longest prefix of the table that the number starts with, and
    ["INTERNATIONAL"] when the number starts with none of them. *)
Theorem detectCountry_longest_prefix (p : jsstring) :
  detectCountry p = longest_prefix_country countryCodes p
  /\ (forall code country,
        In (code, country) countryCodes ->
        startsWith p code = true ->
        (forall code' country', In (code', country') countryCodes ->
           startsWith p code' = true -> length code' <= length code) ->
        detectCountry p = country)
  /\ ((forall code country, In (code, country) countryCodes ->
         startsWith p code = false) ->
      detectCountry p = "INTERNATIONAL").
Proof.
  split; [apply detectCountry_refines|]. split.
  - intros code country Hin Hm _.
    simpl in Hin.
    repeat (destruct Hin as [E|Hin];
            [inversion E; subst; clear E; decided_by Hm|]).
    contradiction.
  - intros Hnone. rewrite detectCountry_refines. unfold longest_prefix_country.
    destruct (longest_match countryCodes p) as [[code country]|] eqn:Hl;
      [|reflexivity].
    apply longest_match_some in Hl as (Hin & Hm & _).
    rewrite (Hnone _ _ Hin) in Hm. discriminate.
Qed.

(** The theorem at ["+923001234567"], whose only matching prefix is
    ["+92"]. *)
Lemma detectCountry_longest_prefix_witness :
  detectCountry (lit "+923001234567") = "PAKISTAN".
Proof.
  apply (proj1 (proj2 (detectCountry_longest_prefix (lit "+923001234567")))
           (lit "+92") "PAKISTAN").
  - simpl. left. reflexivity.
  - reflexivity.
  - intros code' country' Hin Hm. simpl in Hin.
    repeat (destruct Hin as [E|Hin];
            [inversion E; subst; clear E;
             first [ discriminate Hm | vm_compute; lia ]|]).
    contradiction.
Defined.

(** ** The scenario of ["+923001234567"] and ["Hello"] *)

(** C1, as the program computes it: the number validates, the country is
    PAKISTAN, the message is one part in GSM_7BIT, the priority is the
    number 1.2, the route is QUANTUM_PAKISTAN_HUB and the success
    probability is [min(0.99, 0.85 * 0.95 + 0.10)], which is the number
    0.9075. *)
Theorem scenario_pakistan_hello (lower : jsstring -> jsstring) :
  let phoneNumber := lit "+923001234567" in
  let message := lit "Hello" in
  pv_valid (validatePhoneNumber phoneNumber) = true
  /\ detectCountry phoneNumber = "PAKISTAN"
  /\ length (splitMessage message) = 1
  /\ detectEncoding message = "GSM_7BIT"
  /\ (calculatePriority lower phoneNumber message == dbl 1.2
      /\ 1.2 - 1e-15 <= calculatePriority lower phoneNumber message <= 1.2 + 1e-15)%Q
  /\ calculateBestRoute phoneNumber = "QUANTUM_PAKISTAN_HUB"
  /\ (calculateSuccessProbability phoneNumber
      == Math_min (dbl 0.99) (add (mul (dbl 0.85) (dbl 0.95)) (dbl 0.10))
      /\ calculateSuccessProbability phoneNumber == dbl 0.9075
      /\ 0.9075 - 1e-15 <= calculateSuccessProbability phoneNumber
         <= 0.9075 + 1e-15)%Q.
Proof.
  cbn zeta. repeat split; try reflexivity;
    first [ apply Qeq_bool_iff | apply Qle_bool_iff ]; vm_compute; reflexivity.
Qed.

(** C1, the figure of the scenario: the success probability of
    ["+923001234567"] is not within 0.049 of 0.9575. *)
Lemma scenario_probability_is_not_0_9575 :
  (calculateSuccessProbability (lit "+923001234567") <= 0.9575 - 0.049)%Q
  /\ ~ (calculateSuccessProbability (lit "+923001234567") == dbl 0.9575)%Q.
Proof.
  split.
  - apply Qle_bool_iff. vm_compute. reflexivity.
  - intros H. apply Qeq_bool_iff in H. vm_compute in H. discriminate.
Qed.

(** ** Scoring and selection *)

Lemma Math_min_max_within (lo hi x : Q) :
  (lo <= hi)%Q ->
  (lo <= Math_min hi (Math_max lo x) /\ Math_min hi (Math_max lo x) <= hi)%Q.
Proof.
  intros Hlohi. unfold Math_min, Math_max.
  destruct (Qle_bool lo x) eqn:H0.
  - apply Qle_bool_iff in H0.
    destruct (Qle_bool hi x) eqn:H1; [split; lra|].
    split; [exact H0|].
    destruct (Qlt_le_dec x hi) as [Hlt|Hge]; [lra|].
    apply Qle_bool_iff in Hge. congruence.
  - destruct (Qle_bool hi lo) eqn:H1; [apply Qle_bool_iff in H1|]; split; lra.
Qed.

Lemma dbl_0 : (dbl 0 == 0)%Q.
Proof. reflexivity. Qed.

Lemma dbl_1 : (dbl 1 == 1)%Q.
Proof. reflexivity. Qed.

(** Rounding does not see how a rational is written. *)
Lemma double_ext (p q : Q) : (p == q)%Q -> double p = double q.
Proof.
  intros H. unfold double. rewrite (Qred_complete p q H). reflexivity.
Qed.

(** What the [reduce] returns is the first element with the highest
    score. *)
Lemma fold_better_first_max (rest : list (string * Q)) (first : string * Q) :
  exists i,
    (first :: rest) !! i = Some (fold_left better rest first)
    /\ (forall j x, (first :: rest) !! j = Some x ->
          (snd x <= snd (fold_left better rest first))%Q)
    /\ (forall j x, j < i -> (first :: rest) !! j = Some x ->
          (snd x < snd (fold_left better rest first))%Q).
Proof.
  induction rest as [|current rest IH] using rev_ind.
  - exists 0. simpl. split; [reflexivity|]. split.
    + intros [|j] x Hx; simpl in Hx; [|discriminate].
      inversion Hx; subst. lra.
    + intros j x Hj. lia.
  - rewrite fold_left_app. simpl.
    destruct IH as (i & Hi & Hmax & Hbefore).
    set (best := fold_left better rest first) in *.
    assert (Hlen : i < length (first :: rest))
      by (eapply lookup_lt_Some; exact Hi).
    change (first :: rest ++ [current]) with ((first :: rest) ++ [current]).
    assert (Hb : better best current
                 = if negb (Qle_bool (snd current) (snd best))
                   then current else best) by reflexivity.
    rewrite Hb. clear Hb.
    destruct (Qle_bool (snd current) (snd best)) eqn:H; simpl negb; cbv iota.
    + apply Qle_bool_iff in H. exists i. split; [|split].
      * rewrite lookup_app_l by exact Hlen. exact Hi.
      * intros j x Hx. apply lookup_app_Some in Hx as [Hx|[_ Hx]].
        -- eapply Hmax; exact Hx.
        -- destruct (j - length (first :: rest)); simpl in Hx; [|discriminate].
           inversion Hx; subst. exact H.
      * intros j x Hj Hx. rewrite lookup_app_l in Hx by lia.
        eapply Hbefore; eassumption.
    + assert (Hlt : (snd best < snd current)%Q).
      { destruct (Qlt_le_dec (snd best) (snd current)) as [Hlt|Hge]; [exact Hlt|].
        apply Qle_bool_iff in Hge. congruence. }
      exists (length (first :: rest)). split; [|split].
      * rewrite lookup_app_r by lia. rewrite Nat.sub_diag. reflexivity.
      * intros j x Hx. apply lookup_app_Some in Hx as [Hx|[_ Hx]].
        -- specialize (Hmax _ _ Hx). lra.
        -- destruct (j - length (first :: rest)); simpl in Hx; [|discriminate].
           inversion Hx; subst. lra.
      * intros j x Hj Hx. rewrite lookup_app_l in Hx by lia.
        specialize (Hmax _ _ Hx). lra.
Qed.

(** A score does not depend on a draw whose jitter is 0. *)
Lemma scoreTransmissionMethod_jitter_free method optimization d1 d2 :
  (jitter d1 == 0)%Q -> (jitter d2 == 0)%Q ->
  scoreTransmissionMethod method optimization d1
  = scoreTransmissionMethod method optimization d2.
Proof.
  intros H1 H2. unfold scoreTransmissionMethod.
  match goal with
  | |- Math_min _ (Math_max _ (add ?a _)) = _ => set (base := a)
  end.
  assert (E : add base (jitter d1) = add base (jitter d2))
    by (unfold add; apply double_ext; rewrite H1, H2; reflexivity).
  rewrite E. reflexivity.
Qed.

Lemma selectBest_over_first_max methods draws optimization :
  methods <> [] ->
  exists i method,
    selectBest_over methods draws optimization = Returns method
    /\ methods !! i = Some method
    /\ (forall j other, methods !! j = Some other ->
          (scoreTransmissionMethod other optimization (draws j)
           <= scoreTransmissionMethod method optimization (draws i))%Q)
    /\ (forall j other, j < i -> methods !! j = Some other ->
          (scoreTransmissionMethod other optimization (draws j)
           < scoreTransmissionMethod method optimization (draws i))%Q).
Proof.
  intros Hne. unfold selectBest_over.
  set (f := fun k method =>
              (method, scoreTransmissionMethod method optimization (draws k))).
  destruct (imap f methods) as [|first rest] eqn:Hscores.
  - destruct methods; [contradiction|discriminate].
  - simpl.
    destruct (fold_better_first_max rest first) as (i & Hi & Hmax & Hbefore).
    rewrite <- Hscores in Hi, Hmax, Hbefore.
    rewrite list_lookup_imap in Hi.
    destruct (methods !! i) as [method|] eqn:Hm; [|discriminate].
    simpl in Hi. inversion Hi as [Hbest]. clear Hi.
    rewrite <- Hbest in Hmax, Hbefore.
    exists i, method.
    split; [reflexivity|]. split; [exact Hm|]. split.
    + intros j other Hj.
      apply (Hmax j (f j other)). rewrite list_lookup_imap, Hj. reflexivity.
    + intros j other Hlt Hj.
      apply (Hbefore j (f j other) Hlt). rewrite list_lookup_imap, Hj. reflexivity.
Qed.

(** C8: a method score lies in [0,1] whatever the draw; with the jitter at
    0 two selections on the same profile pick the same method; and the
    method picked is the first of the configured list among those with the
    highest score. *)
Theorem score_in_unit_interval_and_selection_reproducible :
  (forall method optimization draw,
     (0 <= scoreTransmissionMethod method optimization draw
      /\ scoreTransmissionMethod method optimization draw <= 1)%Q)
  /\ (forall optimization draws1 draws2,
        (forall k, jitter (draws1 k) == 0)%Q ->
        (forall k, jitter (draws2 k) == 0)%Q ->
        selectBestTransmissionMethod draws1 optimization
        = selectBestTransmissionMethod draws2 optimization)
  /\ (forall optimization draws,
        exists i method,
          selectBestTransmissionMethod draws optimization = Returns method
          /\ config.TRANSMISSION_METHODS !! i = Some method
          /\ (forall j other, config.TRANSMISSION_METHODS !! j = Some other ->
                (scoreTransmissionMethod other optimization (draws j)
                 <= scoreTransmissionMethod method optimization (draws i))%Q)
          /\ (forall j other, j < i ->
                config.TRANSMISSION_METHODS !! j = Some other ->
                (scoreTransmissionMethod other optimization (draws j)
                 < scoreTransmissionMethod method optimization (draws i))%Q)).
Proof.
  split; [|split].
  - intros method optimization draw. unfold scoreTransmissionMethod.
    match goal with
    | |- (_ <= Math_min _ (Math_max _ ?x) /\ _)%Q =>
        destruct (Math_min_max_within (dbl 0) (dbl 1) x) as [Hlo Hhi]
    end.
    + apply Qle_bool_iff. reflexivity.
    + pose proof dbl_0. pose proof dbl_1. split; lra.
  - intros optimization draws1 draws2 H1 H2.
    assert (E : forall k method,
               scoreTransmissionMethod method optimization (draws1 k)
               = scoreTransmissionMethod method optimization (draws2 k))
      by (intros k method; apply scoreTransmissionMethod_jitter_free; auto).
    unfold selectBestTransmissionMethod, selectBest_over,
      config.TRANSMISSION_METHODS.
    cbn [imap]. unfold compose. rewrite !E. reflexivity.
  - intros optimization draws. unfold selectBestTransmissionMethod.
    apply selectBest_over_first_max. discriminate.
Qed.

(** The theorem at a domestic profile with every draw at 0.5, which makes
    the jitter 0: QUANTUM_TUNNELING and WAVE_FUNCTION_TRANSMISSION both
    score 0.9 and the first listed is selected. *)

Lemma score_in_unit_interval_and_selection_reproducible_witness :
  (forall k : nat, jitter 0.5 == 0)%Q
  /\ selectBestTransmissionMethod (fun _ => 0.5%Q) pakistan_profile
     = selectBestTransmissionMethod (fun _ => (1 # 2)%Q) pakistan_profile
  /\ selectBestTransmissionMethod (fun _ => 0.5%Q) pakistan_profile
     = Returns "QUANTUM_TUNNELING".
Proof.
  split; [intros k; reflexivity|]. split; [|reflexivity].
  apply (proj1 (proj2 score_in_unit_interval_and_selection_reproducible)
           pakistan_profile (fun _ => 0.5%Q) (fun _ => (1 # 2)%Q));
    intros k; reflexivity.
Defined.

(** With the jitter at 0 and a priority above 1, AI_OPTIMIZED_ROUTING
    scores [0.5 + 0.2 + 0.2], one unit in the last place below the [0.9] of
    WAVE_FUNCTION_TRANSMISSION: there is no tie and the last method of the
    list is selected. *)
Example selection_usa :
  selectBestTransmissionMethod (fun _ => 0.5%Q) usa_profile
  = Returns "WAVE_FUNCTION_TRANSMISSION"
  /\ (scoreTransmissionMethod "AI_OPTIMIZED_ROUTING" usa_profile 0.5
      < scoreTransmissionMethod "WAVE_FUNCTION_TRANSMISSION" usa_profile 0.5)%Q.
Proof. split; reflexivity. Qed.

(** ** The executor boundary *)

(** The steps go through exactly when both arguments are strings. *)
Lemma transmission_steps_strings h (p m : jsstring) :
  exists t, transmission_steps h (Some p) (Some m) = Returns t.
Proof.
  unfold transmission_steps. cbn [optimizeTransmission bind].
  destruct (selectBest_over_first_max config.TRANSMISSION_METHODS (scoreDraw h)
              (mkOptimization p (detectCountry p) (length m)
                 (length (splitMessage m)) (detectEncoding m)
                 (calculatePriority (unicodeLower h) p m) (calculateBestRoute p)
                 (calculateTransmissionWindow (hours h))
                 (calculateSuccessProbability p)))
    as (i & method & Hsel & _); [discriminate|].
  unfold selectBestTransmissionMethod. rewrite Hsel.
  cbn [bind member]. eexists. reflexivity.
Qed.

Lemma transmission_steps_undefined h (phoneNumber message : option jsstring) :
  phoneNumber = None \/ message = None ->
  exists e, transmission_steps h phoneNumber message = Throws e.
Proof.
  unfold transmission_steps, optimizeTransmission.
  intros [-> | ->]; [|destruct phoneNumber]; eexists; reflexivity.
Qed.

(** C5: [processSMSTransmission] returns a result for every phone number
    and message and never raises: when one of its steps raises, the result
    has [success = false], [status = "FAILED"] and the message of the
    exception; otherwise it has [success = true]. *)
Theorem processSMSTransmission_never_raises (h : Host)
    (phoneNumber message : option jsstring) :
  exists result,
    processSMSTransmission h phoneNumber message = Returns result
    /\ match transmission_steps h phoneNumber message with
       | Returns _ => tx_success result = true
       | Throws error =>
           tx_success result = false
           /\ tx_status result = "FAILED"
           /\ tx_error result = Some (err_message error)
       end.
Proof.
  unfold processSMSTransmission.
  destruct (transmission_steps h phoneNumber message) as [t|error];
    cbn [bind try_catch]; eexists; split; try reflexivity.
  cbn. repeat split.
Qed.

(** Both branches occur: a string pair is delivered, an [undefined]
    argument fails. *)
Lemma processSMSTransmission_outcomes (h : Host) (p m : jsstring) :
  (exists result, processSMSTransmission h (Some p) (Some m) = Returns result
                  /\ tx_success result = true /\ tx_status result = "DELIVERED")
  /\ (exists result, processSMSTransmission h None (Some m) = Returns result
                     /\ tx_success result = false
                     /\ tx_error result
                        = Some "Cannot read properties of undefined (reading 'startsWith')"%string).
Proof.
  split.
  - destruct (transmission_steps_strings h p m) as [t Ht].
    unfold processSMSTransmission. rewrite Ht. cbn [bind try_catch].
    eexists. split; [reflexivity|]. split; reflexivity.
  - eexists. split; [reflexivity|]. split; reflexivity.
Qed.

(** ** Counters of a send and its retry *)

(** What the Send Now button and the retry timer run once the executor has
    answered. *)
Lemma send_immediate_runs_sendSMS_with h g userId session result :
  userSessions g !! userId = Some session ->
  processSMSTransmission h (sd_phoneNumber (data session))
    (sd_message (data session)) = Returns result ->
  handle h g (FromUser userId (CallbackQuery "send_immediate"))
  = sendSMS_with h g userId session result.
Proof.
  intros Hs Hr. simpl. unfold handleCallbackQuery. simpl. unfold sendSMS.
  rewrite Hs, Hr. reflexivity.
Qed.

Lemma retry_timer_runs_retryTransmission_with h g smsData armed result :
  retryTimers g = smsData :: armed ->
  processSMSTransmission h (sd_phoneNumber smsData) (sd_message smsData)
  = Returns result ->
  after (handle h g RetryTimer)
  = fst (retryTransmission_with (with_timers g armed) result).
Proof.
  intros Ht Hr. simpl. unfold retry_timer, retryTransmission.
  rewrite Ht, Hr. reflexivity.
Qed.

(** ** Handlers, case by case *)

Lemma after_bot_catch (t : Turn) : after (bot_catch t) = after t.
Proof. unfold bot_catch. destruct (outcome t); reflexivity. Qed.

Lemma with_sessions_same (g : Gateway) : with_sessions g (userSessions g) = g.
Proof. destruct g; reflexivity. Qed.

Lemma set_step_sessions g userId value g' :
  set_step g userId value = Returns g' -> exists m, g' = with_sessions g m.
Proof.
  unfold set_step. destruct (userSessions g !! userId); intros H;
    inversion H; subst. eexists. reflexivity.
Qed.

(** A text turn writes nothing but the session map. *)
Lemma handleTextMessage_sessions h g userId text :
  exists m, after (handleTextMessage h g userId text) = with_sessions g m.
Proof.
  unfold handleTextMessage, processPhoneNumber, processMessage.
  repeat match goal with
         | |- context [match ?x with _ => _ end] => destruct x
         end;
    simpl; eexists; try reflexivity; symmetry; apply with_sessions_same.
Qed.

(** Neither does a button other than Send Now. *)
Lemma handleCallbackQuery_sessions h g userId action :
  String.eqb action "send_immediate" = false ->
  exists m, after (handleCallbackQuery h g userId action) = with_sessions g m.
Proof.
  intros E. unfold handleCallbackQuery. rewrite E.
  repeat match goal with
         | |- context [if ?b then _ else _] => destruct b
         end;
    try (simpl; eexists; try reflexivity; symmetry; apply with_sessions_same).
  all: match goal with
       | |- context [set_step ?g ?u ?v] =>
           destruct (set_step g u v) as [g'|e] eqn:Hs;
           [apply set_step_sessions in Hs as [m ->]; simpl; eexists; reflexivity
           |simpl; eexists; symmetry; apply with_sessions_same]
       end.
Qed.

Lemma handle_update_sessions h g userId u :
  on_send_path (FromUser userId u) = false ->
  exists m, after (handle_update h g userId u) = with_sessions g m.
Proof.
  destruct u; simpl; intros E;
    try (eexists; reflexivity);
    try (eexists; symmetry; apply with_sessions_same).
  - apply handleTextMessage_sessions.
  - apply handleCallbackQuery_sessions. exact E.
Qed.

Lemma drained_batch_discarded h (batch : list Queued) (g : Gateway) :
  fold_left
    (fun g transmission =>
       match processSMSTransmission h (q_phoneNumber transmission)
               (q_message transmission) with
       | Returns _ => g
       | Throws _ => g
       end)
    batch g = g.
Proof.
  induction batch as [|t batch IH]; simpl; [reflexivity|].
  destruct (processSMSTransmission h (q_phoneNumber t) (q_message t)); exact IH.
Qed.

Lemma processTransmissionQueue_eq h g :
  processTransmissionQueue h g = with_queue g (drop 10 (transmissionQueue g)).
Proof.
  unfold processTransmissionQueue.
  destruct (transmissionQueue g) as [|t q] eqn:Hq.
  - simpl. destruct g; simpl in *; subst; reflexivity.
  - cbn [length Nat.eqb]. apply drained_batch_discarded.
Qed.

(** What [sendSMS] leaves: the gateway as it was, or the gateway logged
    after counting one result. *)
Lemma sendSMS_after h g userId :
  after (sendSMS h g userId) = g
  \/ exists session result,
       userSessions g !! userId = Some session
       /\ after (sendSMS h g userId)
          = after (sendSMS_with h g userId session result).
Proof.
  unfold sendSMS. destruct (userSessions g !! userId) as [session|];
    [|left; reflexivity].
  destruct (processSMSTransmission h _ _) as [result|e];
    [|left; reflexivity].
  right. exists session, result. split; reflexivity.
Qed.

(** What the retry timer leaves: the timers and the counters may differ. *)
Lemma retry_timer_after h g :
  exists st ts, after (retry_timer h g) = with_timers (with_stats g st) ts.
Proof.
  unfold retry_timer. destruct (retryTimers g) as [|smsData armed] eqn:Ht.
  - exists (systemStats g), (retryTimers g). destruct g; reflexivity.
  - unfold retryTransmission.
    destruct (processSMSTransmission h _ _) as [result|e]; simpl.
    + eexists _, _. reflexivity.
    + exists (systemStats g), armed. reflexivity.
Qed.

Lemma handle_frame h g e :
  on_send_path e = true
  \/ (systemStats (after (handle h g e)) = systemStats g
      /\ sms_logs (after (handle h g e)) = sms_logs g
      /\ transmission_files (after (handle h g e)) = transmission_files g).
Proof.
  destruct (on_send_path e) eqn:E; [left; reflexivity|right].
  destruct e as [userId u| | | |]; simpl.
  - rewrite after_bot_catch.
    destruct (handle_update_sessions h g userId u E) as [m ->].
    repeat split; reflexivity.
  - discriminate.
  - rewrite processTransmissionQueue_eq. repeat split; reflexivity.
  - repeat split; reflexivity.
  - repeat split; reflexivity.
Qed.

(** ** Queue drain *)

(** C10: a drain tick takes the first ten requests (all of them when there
    are fewer) out of the queue and leaves the counters, the transmission
    log and the per-transmission files as they were; no event off the
    interactive send path (the Send Now button and the retry it arms)
    changes the counters or the log. *)
Theorem queue_drain_counts_and_logs_nothing :
  (forall h g,
     let g' := processTransmissionQueue h g in
     transmissionQueue g' = drop 10 (transmissionQueue g)
     /\ length (transmissionQueue g) - length (transmissionQueue g') <= 10
     /\ systemStats g' = systemStats g
     /\ sms_logs g' = sms_logs g
     /\ transmission_files g' = transmission_files g)
  /\ (forall h g e,
        on_send_path e = true
        \/ (systemStats (after (handle h g e)) = systemStats g
            /\ sms_logs (after (handle h g e)) = sms_logs g
            /\ transmission_files (after (handle h g e)) = transmission_files g)).
Proof.
  split.
  - intros h g. cbn zeta. rewrite processTransmissionQueue_eq. simpl.
    rewrite length_drop. repeat split; try reflexivity. lia.
  - apply handle_frame.
Qed.


Example drain_backlog :
  let g' := processTransmissionQueue quiet_host backlog in
  length (transmissionQueue g') = 2
  /\ systemStats g' = systemStats backlog
  /\ sms_logs g' = sms_logs backlog.
Proof. repeat split. Qed.

(** ** Bounded logs *)

(** [slice(-n)] of an array longer than [n] drops the front and keeps the
    last [n] elements. *)
Lemma slice_keeps_last {A} (l : list A) (n : Z) :
  (0 < n)%Z -> (n < Z.of_nat (length l))%Z ->
  take (length l - Z.to_nat n) l ++ slice l (- n) = l
  /\ Z.of_nat (length (slice l (- n))) = n.
Proof.
  intros Hn Hlen. unfold slice.
  replace (- n <? 0)%Z with true by (symmetry; apply Z.ltb_lt; lia).
  replace (Z.to_nat (Z.max (Z.of_nat (length l) + - n) 0))
    with (length l - Z.to_nat n) by lia.
  split; [apply take_drop|]. rewrite length_drop. lia.
Qed.

Lemma append_sms_log_keeps_recent (file : option (list LogEntry)) (entry : LogEntry) :
  exists evicted,
    records file ++ [entry] = evicted ++ append_sms_log file entry
    /\ Z.of_nat (length (append_sms_log file entry))
       = Z.min (Z.of_nat (length (records file)) + 1) 10000.
Proof.
  unfold append_sms_log. fold (records file).
  assert (Hlen : Z.of_nat (length (records file ++ [entry]))
                 = (Z.of_nat (length (records file)) + 1)%Z)
    by (rewrite length_app; simpl; lia).
  destruct (Z.ltb_spec 10000 (Z.of_nat (length (records file ++ [entry]))))
    as [Hover|Hfits].
  - destruct (slice_keeps_last (records file ++ [entry]) 10000) as [Hcat Hkept];
      [lia|exact Hover|].
    change (- (10000))%Z with (-10000)%Z in *.
    eexists. split; [symmetry; exact Hcat|]. lia.
  - exists []. split; [reflexivity|]. lia.
Qed.

Lemma append_health_log_keeps_recent (file : option (list HealthSample))
    (health : HealthSample) :
  exists evicted,
    records file ++ [health] = evicted ++ append_health_log file health
    /\ Z.of_nat (length (append_health_log file health))
       = Z.min (Z.of_nat (length (records file)) + 1) 1000.
Proof.
  unfold append_health_log. fold (records file).
  assert (Hlen : Z.of_nat (length (records file ++ [health]))
                 = (Z.of_nat (length (records file)) + 1)%Z)
    by (rewrite length_app; simpl; lia).
  destruct (Z.ltb_spec 1000 (Z.of_nat (length (records file ++ [health]))))
    as [Hover|Hfits].
  - destruct (slice_keeps_last (records file ++ [health]) 1000) as [Hcat Hkept];
      [lia|exact Hover|].
    change (- (1000))%Z with (-1000)%Z in *.
    eexists. split; [symmetry; exact Hcat|]. lia.
  - exists []. split; [reflexivity|]. lia.
Qed.

Lemma send_path_update h g userId u :
  on_send_path (FromUser userId u) = true ->
  handle_update h g userId u = sendSMS h g userId.
Proof.
  destruct u; simpl; try discriminate. intros E.
  apply String.eqb_eq in E. subst. reflexivity.
Qed.

(** Every event leaves [sms_logs.json] alone or appends to it through
    [logTransmission]. *)
Lemma handle_sms_logs h g e :
  sms_logs (after (handle h g e)) = sms_logs g
  \/ exists entry,
       sms_logs (after (handle h g e))
       = Some (append_sms_log (sms_logs g) entry).
Proof.
  destruct (handle_frame h g e) as [E|(_ & H & _)]; [|left; exact H].
  destruct e as [userId u| | | |]; try discriminate.
  - simpl. rewrite after_bot_catch, (send_path_update _ _ _ _ E).
    destruct (sendSMS_after h g userId) as [->|(session & result & _ & ->)];
      [left; reflexivity|].
    right. unfold sendSMS_with. destruct (tx_success result); simpl;
      eexists; reflexivity.
  - simpl. destruct (retry_timer_after h g) as (st & ts & ->).
    left. reflexivity.
Qed.

(** Every event leaves [health.json] alone or appends to it through
    [checkSystemHealth]. *)
Lemma handle_health_log h g e :
  health_log (after (handle h g e)) = health_log g
  \/ exists health,
       health_log (after (handle h g e))
       = Some (append_health_log (health_log g) health).
Proof.
  destruct e as [userId u| | | |]; simpl.
  - rewrite after_bot_catch.
    destruct (on_send_path (FromUser userId u)) eqn:E.
    + rewrite (send_path_update _ _ _ _ E).
      destruct (sendSMS_after h g userId) as [->|(session & result & _ & ->)];
        [left; reflexivity|].
      left. unfold sendSMS_with. destruct (tx_success result); reflexivity.
    + destruct (handle_update_sessions h g userId u E) as [m ->].
      left. reflexivity.
  - destruct (retry_timer_after h g) as (st & ts & ->). left. reflexivity.
  - rewrite processTransmissionQueue_eq. left. reflexivity.
  - right. eexists. reflexivity.
  - left. reflexivity.
Qed.


Lemma handle_keeps_caps h g e :
  logs_within_caps g -> logs_within_caps (after (handle h g e)).
Proof.
  intros [Hs Hh]. split.
  - destruct (handle_sms_logs h g e) as [->|[entry ->]]; [exact Hs|].
    destruct (append_sms_log_keeps_recent (sms_logs g) entry) as (_ & _ & Hlen).
    simpl. lia.
  - destruct (handle_health_log h g e) as [->|[health ->]]; [exact Hh|].
    destruct (append_health_log_keeps_recent (health_log g) health)
      as (_ & _ & Hlen).
    simpl. lia.
Qed.

Lemma run_keeps_caps events g :
  logs_within_caps g -> logs_within_caps (run g events).
Proof.
  revert g. induction events as [|[h e] events IH]; intros g Hg; simpl.
  - exact Hg.
  - apply IH, handle_keeps_caps, Hg.
Qed.

(** C9: whatever events a gateway started on an empty data directory goes
    through, [sms_logs.json] holds at most 10,000 records and [health.json]
    at most 1,000; and an append keeps the most recent records: what it
    writes is the old content followed by the new record, less a front
    part that is evicted only to bring the length down to the cap. *)
Theorem logs_stay_within_caps :
  (forall start events,
     (Z.of_nat (length (records (sms_logs (run (initial start) events))))
      <= 10000)%Z
     /\ (Z.of_nat (length (records (health_log (run (initial start) events))))
         <= 1000)%Z)
  /\ (forall h g result,
        exists evicted entry,
          sms_logs (logTransmission h g result)
          = Some (append_sms_log (sms_logs g) entry)
          /\ records (sms_logs g) ++ [entry]
             = evicted ++ append_sms_log (sms_logs g) entry
          /\ Z.of_nat (length (append_sms_log (sms_logs g) entry))
             = Z.min (Z.of_nat (length (records (sms_logs g))) + 1) 10000)
  /\ (forall h g,
        exists evicted health,
          health_log (checkSystemHealth h g)
          = Some (append_health_log (health_log g) health)
          /\ records (health_log g) ++ [health]
             = evicted ++ append_health_log (health_log g) health
          /\ Z.of_nat (length (append_health_log (health_log g) health))
             = Z.min (Z.of_nat (length (records (health_log g))) + 1) 1000).
Proof.
  split; [|split].
  - intros start events. apply run_keeps_caps. split; simpl; lia.
  - intros h g result.
    set (entry := mkLogEntry (tx_transmissionId result) (tx_phoneNumber result)
                    (tx_success result) (isoTime h) (tx_method result)).
    destruct (append_sms_log_keeps_recent (sms_logs g) entry)
      as (evicted & Hcat & Hlen).
    exists evicted, entry. split; [reflexivity|]. split; assumption.
  - intros h g.
    set (health := mkHealthSample (heapUsed h) (uptime h)
                     (size (userSessions g)) (length (transmissionQueue g))
                     (clock h)).
    destruct (append_health_log_keeps_recent (health_log g) health)
      as (evicted & Hcat & Hlen).
    exists evicted, health. split; [reflexivity|]. split; assumption.
Qed.

(** Appending to a full log evicts its oldest record and nothing else. *)
Example append_to_full_log :
  append_sms_log (Some full_log) newest_record
  = repeat later_record (Z.to_nat 9999) ++ [newest_record].
Proof. vm_compute. reflexivity. Qed.

(** ** Sessions of the BULK and SCHEDULED flows *)

(** A text turn on a session at one of the four steps applies [undefined]:
    the handler raises, writes nothing and sends nothing. *)
Lemma text_on_missing_handler h g userId text session :
  userSessions g !! userId = Some session ->
  bulk_or_schedule_step (step session) = true ->
  exists callee,
    In callee [ "this.processBulkNumbers"; "this.processBulkMessages";
                "this.processScheduleTime"; "this.processScheduleMessage" ]%string
    /\ handleTextMessage h g userId text = raised (not_a_function callee) g [].
Proof.
  intros Hs Hstep. unfold handleTextMessage. rewrite Hs.
  unfold bulk_or_schedule_step in Hstep.
  destruct (String.eqb_spec (step session) "awaiting_number") as [E|_];
    [rewrite E in Hstep; discriminate|].
  destruct (String.eqb_spec (step session) "awaiting_message") as [E|_];
    [rewrite E in Hstep; discriminate|].
  destruct (String.eqb (step session) "awaiting_bulk_numbers");
    [eexists; split; [|reflexivity]; simpl; tauto|].
  destruct (String.eqb (step session) "awaiting_bulk_messages");
    [eexists; split; [|reflexivity]; simpl; tauto|].
  destruct (String.eqb (step session) "awaiting_schedule_time");
    [eexists; split; [|reflexivity]; simpl; tauto|].
  destruct (String.eqb (step session) "awaiting_schedule_message");
    [eexists; split; [|reflexivity]; simpl; tauto|].
  discriminate.
Qed.

(** A text turn of one user leaves the sessions of the others alone. *)
Lemma handleTextMessage_other h g sender text userId :
  sender <> userId ->
  userSessions (after (handleTextMessage h g sender text)) !! userId
  = userSessions g !! userId.
Proof.
  intros Hne. unfold handleTextMessage, processPhoneNumber, processMessage.
  repeat match goal with
         | |- context [match ?x with _ => _ end] => destruct x
         end;
    simpl; try reflexivity; apply lookup_insert_ne; exact Hne.
Qed.

Lemma text_turn_keeps_session h g sender text userId session :
  userSessions g !! userId = Some session ->
  bulk_or_schedule_step (step session) = true ->
  userSessions (after (handle h g (FromUser sender (Text text)))) !! userId
  = Some session.
Proof.
  intros Hs Hstep. simpl. rewrite after_bot_catch.
  destruct (decide (sender = userId)) as [->|Hne].
  - destruct (text_on_missing_handler h g userId text session Hs Hstep)
      as (callee & _ & ->).
    exact Hs.
  - rewrite handleTextMessage_other by exact Hne. exact Hs.
Qed.

Lemma text_turns_keep_session (turns : list (Host * Z * jsstring)) g userId session :
  userSessions g !! userId = Some session ->
  bulk_or_schedule_step (step session) = true ->
  userSessions (run g (map text_event turns)) !! userId = Some session.
Proof.
  revert g. induction turns as [|[[h sender] text] turns IH]; intros g Hs Hstep.
  - exact Hs.
  - simpl. apply IH; [|exact Hstep].
    apply (text_turn_keeps_session h g sender text); assumption.
Qed.

(** The invariant of the session map: no session is at the second step of
    the BULK or of the SCHEDULED flow. *)
Lemma second_step_free_insert (m : gmap Z Session) userId session :
  second_step_free m ->
  step session <> "awaiting_bulk_messages"%string ->
  step session <> "awaiting_schedule_message"%string ->
  second_step_free (<[userId := session]> m).
Proof.
  intros Hm H1 H2 u s Hs. apply lookup_insert_Some in Hs as [[_ <-]|[_ Hs]].
  - split; assumption.
  - eapply Hm; exact Hs.
Qed.

Lemma second_step_free_delete (m : gmap Z Session) userId :
  second_step_free m -> second_step_free (delete userId m).
Proof.
  intros Hm u s Hs. apply lookup_delete_Some in Hs as [_ Hs].
  eapply Hm; exact Hs.
Qed.

Lemma second_step_free_filter (m : gmap Z Session) (P : Z * Session -> Prop)
    `{forall x, Decision (P x)} :
  second_step_free m -> second_step_free (filter P m).
Proof.
  intros Hm u s Hs. apply map_lookup_filter_Some in Hs as [Hs _].
  eapply Hm; exact Hs.
Qed.

Ltac second_step_free_leaf :=
  simpl;
  first [ assumption
        | apply second_step_free_insert; [assumption|discriminate|discriminate]
        | apply second_step_free_delete; assumption ].

Lemma set_step_second_step_free g userId value g' :
  second_step_free (userSessions g) ->
  value <> "awaiting_bulk_messages"%string ->
  value <> "awaiting_schedule_message"%string ->
  set_step g userId value = Returns g' ->
  second_step_free (userSessions g').
Proof.
  intros Hg H1 H2. unfold set_step.
  destruct (userSessions g !! userId); intros H; inversion H; subst.
  simpl. apply second_step_free_insert; assumption.
Qed.

Lemma handle_second_step_free h g e :
  second_step_free (userSessions g) ->
  second_step_free (userSessions (after (handle h g e))).
Proof.
  intros Hg. destruct e as [userId u| | | |]; simpl.
  - rewrite after_bot_catch.
    destruct (on_send_path (FromUser userId u)) eqn:E.
    + rewrite (send_path_update _ _ _ _ E).
      destruct (sendSMS_after h g userId) as [->|(session & result & _ & ->)];
        [exact Hg|].
      unfold sendSMS_with. destruct (tx_success result); second_step_free_leaf.
    + destruct u; simpl in *; try second_step_free_leaf.
      * unfold handleTextMessage, processPhoneNumber, processMessage.
        repeat match goal with
               | |- context [match ?x with _ => _ end] => destruct x
               end; second_step_free_leaf.
      * unfold handleCallbackQuery. rewrite E.
        repeat match goal with
               | |- context [if ?b then _ else _] => destruct b
               end; try second_step_free_leaf.
        all: match goal with
             | |- context [set_step ?g ?u ?v] =>
                 destruct (set_step g u v) as [g'|err] eqn:Hs;
                 [apply set_step_second_step_free in Hs;
                  [exact Hs|exact Hg|discriminate|discriminate]
                 |exact Hg]
             end.
  - destruct (retry_timer_after h g) as (st & ts & ->). exact Hg.
  - rewrite processTransmissionQueue_eq. exact Hg.
  - apply second_step_free_filter. exact Hg.
  - exact Hg.
Qed.

Lemma run_second_step_free events g :
  second_step_free (userSessions g) ->
  second_step_free (userSessions (run g events)).
Proof.
  revert g. induction events as [|[h e] events IH]; intros g Hg; simpl.
  - exact Hg.
  - apply IH, handle_second_step_free, Hg.
Qed.

(** C3, amended: a text turn on a session at [awaiting_bulk_numbers],
    [awaiting_bulk_messages], [awaiting_schedule_time] or
    [awaiting_schedule_message] applies a member the class does not define
    and raises, leaving the gateway as it was; so no sequence of text
    turns moves such a session, and no session of a gateway is ever at
    [awaiting_bulk_messages] or [awaiting_schedule_message]. *)
Theorem bulk_and_schedule_text_turns_raise :
  (forall h g userId text session,
     userSessions g !! userId = Some session ->
     bulk_or_schedule_step (step session) = true ->
     exists callee,
       In callee [ "this.processBulkNumbers"; "this.processBulkMessages";
                   "this.processScheduleTime"; "this.processScheduleMessage" ]%string
       /\ outcome (handleTextMessage h g userId text)
          = Throws (not_a_function callee)
       /\ after (handleTextMessage h g userId text) = g
       /\ replies (handleTextMessage h g userId text) = [])
  /\ (forall (turns : list (Host * Z * jsstring)) g userId session,
        userSessions g !! userId = Some session ->
        bulk_or_schedule_step (step session) = true ->
        userSessions (run g (map text_event turns)) !! userId = Some session)
  /\ (forall start events userId session,
        userSessions (run (initial start) events) !! userId = Some session ->
        step session <> "awaiting_bulk_messages"%string
        /\ step session <> "awaiting_schedule_message"%string).
Proof.
  split; [|split].
  - intros h g userId text session Hs Hstep.
    destruct (text_on_missing_handler h g userId text session Hs Hstep)
      as (callee & Hin & ->).
    exists callee. repeat split. exact Hin.
  - apply text_turns_keep_session.
  - intros start events userId session Hs.
    apply (run_second_step_free events (initial start)) in Hs; [exact Hs|].
    intros u s Hu. simpl in Hu. rewrite lookup_empty in Hu. discriminate.
Qed.

(** The theorem at a session that [/bulk] has just opened: two text turns
    later it is where it was. *)
Lemma bulk_and_schedule_text_turns_raise_witness :
  userSessions
    (run bulk_started
       (map text_event
          [ (quiet_host, 7%Z, lit "+923001234567");
            (quiet_host, 7%Z, lit "Hello") ])) !! 7%Z
  = Some (mkSession "awaiting_bulk_numbers" "BULK" emptyData 0).
Proof.
  apply (proj1 (proj2 bulk_and_schedule_text_turns_raise)); reflexivity.
Defined.

(** C3, the last clause as stated: a session that [/bulk] opened is moved
    by the Edit Message button, which does not look at the mode, and the
    next text turn takes it to [confirm_send]. *)
Lemma bulk_session_reaches_confirm_send :
  exists session,
    userSessions
      (run (initial 0)
         [ (quiet_host, FromUser 7 CmdBulk);
           (quiet_host, FromUser 7 (CallbackQuery "edit_message"));
           (quiet_host, FromUser 7 (Text (lit "Hello"))) ]) !! 7%Z
    = Some session
    /\ mode session = "BULK"%string
    /\ step session = "confirm_send"%string
    /\ step session <> "awaiting_bulk_numbers"%string.
Proof.
  eexists. split; [vm_compute; reflexivity|]. repeat split. discriminate.
Qed.

(** ** Invalid input *)

(** In the two steps of the single flow an input the validator rejects is
    answered with a validation failure and changes nothing, and the step
    changes only when the validator accepts. *)
Lemma single_flow_invalid_input h g userId text session :
  userSessions g !! userId = Some session ->
  (step session = "awaiting_number"%string
   /\ pv_valid (validatePhoneNumber text) = false)
  \/ (step session = "awaiting_message"%string
      /\ mv_valid (validateMessage text) = false) ->
  after (handleTextMessage h g userId text) = g
  /\ outcome (handleTextMessage h g userId text) = Returns tt
  /\ exists r, replies (handleTextMessage h g userId text) = [r]
               /\ is_validation_failure r = true.
Proof.
  intros Hs [[Hstep Hv]|[Hstep Hv]]; unfold handleTextMessage;
    rewrite Hs, Hstep; simpl.
  - unfold processPhoneNumber. rewrite Hv. simpl.
    repeat split. eexists. split; reflexivity.
  - unfold processMessage. rewrite Hv. simpl.
    repeat split. eexists. split; reflexivity.
Qed.

Lemma single_flow_valid_input h g userId text session :
  userSessions g !! userId = Some session ->
  (step session = "awaiting_number"%string
   /\ pv_valid (validatePhoneNumber text) = true
   /\ step <$> userSessions (after (handleTextMessage h g userId text)) !! userId
      = Some "awaiting_message"%string)
  \/ (step session = "awaiting_message"%string
      /\ mv_valid (validateMessage text) = true
      /\ step <$> userSessions (after (handleTextMessage h g userId text)) !! userId
         = Some "confirm_send"%string)
  \/ userSessions (after (handleTextMessage h g userId text)) !! userId
     = Some session.
Proof.
  intros Hs. unfold handleTextMessage. rewrite Hs.
  destruct (String.eqb_spec (step session) "awaiting_number") as [E|_].
  - unfold processPhoneNumber.
    destruct (pv_valid (validatePhoneNumber text)) eqn:Hv; simpl.
    + left. repeat split; [exact E|]. rewrite lookup_insert_eq. reflexivity.
    + right. right. exact Hs.
  - destruct (String.eqb_spec (step session) "awaiting_message") as [E|_].
    + unfold processMessage.
      destruct (mv_valid (validateMessage text)) eqn:Hv; simpl.
      * right. left. repeat split; [exact E|]. rewrite lookup_insert_eq.
        reflexivity.
      * right. right. exact Hs.
    + right. right.
      repeat match goal with
             | |- context [if ?b then _ else _] => destruct b
             end; exact Hs.
Qed.

(** C2 at a session of the bulk flow: the text is not validated; the
    handler raises, the user is sent the generic error of [bot.catch] and
    no validation failure, and the session stays as it was. *)
Theorem bulk_text_gets_no_validation_reply :
  let t := handle quiet_host bulk_started (FromUser 7 (Text (lit "not a number"))) in
  outcome t = Throws (not_a_function "this.processBulkNumbers")
  /\ replies t = [AnErrorOccurred]
  /\ existsb is_validation_failure (replies t) = false
  /\ userSessions (after t) !! 7%Z = userSessions bulk_started !! 7%Z.
Proof.
  repeat split.
Qed.

(** ** The executor of the repository on a retry *)

(** Whether [processSMSTransmission] succeeds depends on its two arguments
    only, not on the host readings: a retry with the data of the first
    attempt ends as the first attempt did. *)
Lemma retry_repeats_first_outcome h1 h2 phoneNumber message first retry :
  processSMSTransmission h1 phoneNumber message = Returns first ->
  processSMSTransmission h2 phoneNumber message = Returns retry ->
  tx_success first = tx_success retry.
Proof.
  unfold processSMSTransmission.
  destruct phoneNumber as [p|], message as [m|].
  - destruct (transmission_steps_strings h1 p m) as [t1 ->].
    destruct (transmission_steps_strings h2 p m) as [t2 ->].
    simpl. intros H1 H2. inversion H1; inversion H2; reflexivity.
  - intros H1 H2. inversion H1; inversion H2; reflexivity.
  - intros H1 H2. inversion H1; inversion H2; reflexivity.
  - intros H1 H2. inversion H1; inversion H2; reflexivity.
Qed.

(* ===================================================================== *)
(** * Further properties of the engine                                    *)
(* ===================================================================== *)

(** ** Rounding error of a number *)

Lemma nearest_even_close (a b : Z) :
  (0 < b)%Z -> (0 <= a)%Z ->
  (2 * Z.abs (nearest_even a b * b - a) <= b)%Z.
Proof.
  intros Hb Ha. unfold nearest_even.
  pose proof (Z.div_mod a b ltac:(lia)) as E.
  pose proof (Z.mod_pos_bound a b Hb) as B.
  remember (a / b)%Z as f. remember (a mod b)%Z as r.
  destruct (Z.compare_spec (2 * r) b) as [H|H|H].
  - destruct (Z.even f); nia.
  - nia.
  - nia.
Qed.

(** The exponent chosen by [double_pos] is below the quotient. *)
Lemma double_pos_exponent (a b : Z) :
  (0 < a)%Z -> (0 < b)%Z ->
  let d := (Z.log2 a - Z.log2 b)%Z in
  let below :=
    if (0 <=? d)%Z then (a <? b * 2 ^ d)%Z else (a * 2 ^ (- d) <? b)%Z in
  let k := if below then (d - 1)%Z else d in
  if (0 <=? k)%Z then (b * 2 ^ k <= a)%Z else (b <= a * 2 ^ (- k))%Z.
Proof.
  intros Ha Hb. cbn zeta.
  destruct (Z.log2_spec a Ha) as [La Ua].
  destruct (Z.log2_spec b Hb) as [Lb Ub].
  pose proof (Z.log2_nonneg a) as Na. pose proof (Z.log2_nonneg b) as Nb.
  set (la := Z.log2 a) in *. set (lb := Z.log2 b) in *.
  destruct (Z.leb_spec 0 (la - lb)) as [Hd|Hd].
  - destruct (Z.ltb_spec a (b * 2 ^ (la - lb))) as [Hbelow|Hnot].
    + destruct (Z.leb_spec 0 (la - lb - 1)) as [Hk|Hk].
      * assert (E : (2 ^ la = 2 ^ (lb + 1) * 2 ^ (la - lb - 1))%Z)
          by (rewrite <- Z.pow_add_r by lia; f_equal; lia).
        replace (Z.succ lb) with (lb + 1)%Z in Ub by lia.
        assert (P : (0 < 2 ^ (la - lb - 1))%Z) by (apply Z.pow_pos_nonneg; lia).
        nia.
      * replace (- (la - lb - 1))%Z with 1%Z by lia.
        replace la with lb in * by lia.
        replace (Z.succ lb) with (lb + 1)%Z in Ub by lia.
        rewrite Z.pow_add_r in Ub by lia. change (2 ^ 1)%Z with 2%Z in *. lia.
    + destruct (Z.leb_spec 0 (la - lb)); [exact Hnot|lia].
  - destruct (Z.ltb_spec (a * 2 ^ (- (la - lb))) b) as [Hbelow|Hnot].
    + destruct (Z.leb_spec 0 (la - lb - 1)); [lia|].
      assert (E : (2 ^ (lb + 1) = 2 ^ la * 2 ^ (- (la - lb - 1)))%Z)
        by (rewrite <- Z.pow_add_r by lia; f_equal; lia).
      replace (Z.succ lb) with (lb + 1)%Z in Ub by lia.
      assert (P : (0 < 2 ^ (- (la - lb - 1)))%Z) by (apply Z.pow_pos_nonneg; lia).
      nia.
    + destruct (Z.leb_spec 0 (la - lb)); [lia|exact Hnot].
Qed.


Lemma round_bounds (A B n E : Z) :
  (0 < B -> 0 < E -> 2 * Z.abs (n * B - A) <= B -> B * E <= A ->
   A * (2 * E - 1) <= n * B * (2 * E) /\ n * B * (2 * E) <= A * (2 * E + 1))%Z.
Proof.
  intros HB HE Hn HA.
  assert (H1 : (- B <= 2 * (n * B - A) <= B)%Z) by lia.
  assert (H2 : (E * (- B) <= E * (2 * (n * B - A)))%Z)
    by (apply Z.mul_le_mono_nonneg_l; lia).
  assert (H3 : (E * (2 * (n * B - A)) <= E * B)%Z)
    by (apply Z.mul_le_mono_nonneg_l; lia).
  split; lia.
Qed.

(** The relative error of [double_pos] is at most [2^-53]. *)
Lemma double_pos_error (a b : positive) :
  (Qmake (Zpos a) b * (1 - (1 # 9007199254740992))
     <= double_pos (Zpos a) (Zpos b)
   /\ double_pos (Zpos a) (Zpos b)
      <= Qmake (Zpos a) b * (1 + (1 # 9007199254740992)))%Q.
Proof.
  pose proof (double_pos_exponent (Zpos a) (Zpos b) ltac:(lia) ltac:(lia)) as Hk.
  cbn zeta in Hk. unfold double_pos.
  set (d := (Z.log2 (Zpos a) - Z.log2 (Zpos b))%Z) in *.
  set (below := if (0 <=? d)%Z then (Zpos a <? Zpos b * 2 ^ d)%Z
                else (Zpos a * 2 ^ (- d) <? Zpos b)%Z) in *.
  set (k := if below then (d - 1)%Z else d) in *.
  clearbody k. clear below d.
  set (E := 4503599627370496%Z).
  assert (HE : (0 < E)%Z) by reflexivity.
  assert (E52 : (E = 2 ^ 52)%Z) by reflexivity.
  change (9007199254740992%positive) with (Z.to_pos (2 * E)).
  assert (ZE : Zpos (Z.to_pos (2 * E)) = (2 * E)%Z) by reflexivity.
  clearbody E.
  destruct (Z.leb_spec 0 (52 - k)) as [Hs|Hs].
  - (* the quotient is scaled up *)
    set (S := (2 ^ (52 - k))%Z).
    assert (HS : (0 < S)%Z) by (apply Z.pow_pos_nonneg; lia).
    assert (F2 : (Zpos b * E <= Zpos a * S)%Z).
    { destruct (Z.leb_spec 0 k) as [Hk0|Hk0].
      - assert (EE : (E = 2 ^ k * S)%Z).
        { unfold S. rewrite <- Z.pow_add_r by lia.
          replace (k + (52 - k))%Z with 52%Z by lia. exact E52. }
        assert (P : (0 < 2 ^ k)%Z) by (apply Z.pow_pos_nonneg; lia).
        rewrite EE. rewrite (Z.mul_comm (2 ^ k)), Z.mul_assoc.
        rewrite (Z.mul_comm (Zpos b * S)), (Z.mul_comm (Zpos a)), Z.mul_assoc.
        rewrite (Z.mul_comm (2 ^ k) (Zpos b)), <- Z.mul_assoc, (Z.mul_comm (2^k) S), Z.mul_assoc.
        rewrite (Z.mul_comm (Zpos b) S), (Z.mul_comm S (Zpos a)).
        rewrite <- !Z.mul_assoc. rewrite (Z.mul_comm (Zpos a) S).
        apply Z.mul_le_mono_nonneg_l; lia.
      - assert (EE : (S = E * 2 ^ (- k))%Z).
        { unfold S. replace (52 - k)%Z with (52 + - k)%Z by lia.
          rewrite Z.pow_add_r by lia. rewrite E52. reflexivity. }
        rewrite EE. rewrite (Z.mul_comm E), Z.mul_assoc.
        apply Z.mul_le_mono_nonneg_r; lia. }
    pose proof (nearest_even_close (Zpos a * S) (Zpos b) ltac:(lia) ltac:(lia)) as F1.
    set (n := nearest_even (Zpos a * S) (Zpos b)) in *.
    destruct (round_bounds (Zpos a * S) (Zpos b) n E ltac:(lia) HE F1 F2) as [Rlo Rhi].
    unfold scale2.
    destruct (Z.leb_spec 0 (- (52 - k))) as [Hz|Hz].
    + assert (S = 1)%Z as HS1
        by (unfold S; replace (52 - k)%Z with 0%Z by lia; reflexivity).
      replace (- (52 - k))%Z with 0%Z by lia. change (2 ^ 0)%Z with 1%Z.
      rewrite HS1 in *. unfold Qminus; unfold Qle, Qmult, Qplus, Qopp, inject_Z.
      cbn [Qnum Qden]. rewrite !Pos2Z.inj_mul, ZE.
      split; lia.
    + replace (- - (52 - k))%Z with (52 - k)%Z by lia. fold S.
      unfold Qminus; unfold Qle, Qmult, Qplus, Qopp.
      cbn [Qnum Qden]. rewrite !Pos2Z.inj_mul, ZE, !Z2Pos.id by lia.
      split; lia.
  - (* the quotient is scaled down *)
    set (S := (2 ^ (- (52 - k)))%Z).
    assert (HS : (0 < S)%Z) by (apply Z.pow_pos_nonneg; lia).
    assert (F2 : (Zpos b * S * E <= Zpos a)%Z).
    { destruct (Z.leb_spec 0 k) as [Hk0|Hk0]; [|lia].
      assert (EE : (2 ^ k = S * E)%Z).
      { unfold S. rewrite E52.
        rewrite <- Z.pow_add_r by lia. f_equal. lia. }
      rewrite EE in Hk. rewrite <- Z.mul_assoc. exact Hk. }
    pose proof (nearest_even_close (Zpos a) (Zpos b * S) ltac:(lia) ltac:(lia)) as F1.
    set (n := nearest_even (Zpos a) (Zpos b * S)) in *.
    destruct (round_bounds (Zpos a) (Zpos b * S) n E ltac:(lia) HE F1 F2) as [Rlo Rhi].
    unfold scale2.
    destruct (Z.leb_spec 0 (- (52 - k))) as [Hz|Hz]; [|lia].
    fold S. unfold Qminus; unfold Qle, Qmult, Qplus, Qopp, inject_Z.
    cbn [Qnum Qden]. rewrite !Pos2Z.inj_mul, ZE.
    split; lia.
Qed.

(** Rounding a number changes it by at most one part in [2^53]. *)
Lemma double_error (q : Q) :
  ((0 <= q ->
    q * (1 - (1 # 9007199254740992)) <= double q
    /\ double q <= q * (1 + (1 # 9007199254740992)))
   /\ (q <= 0 ->
       q * (1 + (1 # 9007199254740992)) <= double q
       /\ double q <= q * (1 - (1 # 9007199254740992))))%Q.
Proof.
  pose proof (Qred_correct q) as Hred. unfold double. cbn zeta.
  destruct (Qred q) as [num den] eqn:E. simpl Qnum. simpl Qden.
  destruct num as [|a|a].
  - assert (H0 : (q == 0)%Q) by (rewrite <- Hred; reflexivity).
    split; intros _; rewrite H0; split; lra.
  - pose proof (double_pos_error a den) as [Hlo Hhi]. rewrite Hred in Hlo, Hhi.
    assert (Hpos : (0 < q)%Q) by (rewrite <- Hred; reflexivity).
    split; intros Hq; [split; assumption|lra].
  - pose proof (double_pos_error a den) as [Hlo Hhi].
    assert (Hq' : (q == - (Zpos a # den))%Q) by (rewrite <- Hred; reflexivity).
    assert (Hneg : (q < 0)%Q) by (rewrite <- Hred; reflexivity).
    split; intros Hq; [lra|]. rewrite Hq'. split; lra.
Qed.

(** ** A method that is never selected *)

Lemma clamp_le (lo hi x c : Q) :
  (x <= c -> lo <= c -> Math_min hi (Math_max lo x) <= c)%Q.
Proof.
  intros Hx Hlo. unfold Math_min, Math_max.
  destruct (Qle_bool lo x) eqn:H0.
  - destruct (Qle_bool hi x) eqn:H1; [apply Qle_bool_iff in H1; lra|exact Hx].
  - destruct (Qle_bool hi lo) eqn:H1; [apply Qle_bool_iff in H1; lra|exact Hlo].
Qed.

Lemma clamp_ge (lo hi x c : Q) :
  (c <= x -> c <= hi -> c <= Math_min hi (Math_max lo x))%Q.
Proof.
  intros Hx Hhi. unfold Math_min, Math_max.
  destruct (Qle_bool lo x) eqn:H0.
  - destruct (Qle_bool hi x) eqn:H1; [exact Hhi|exact Hx].
  - assert (Hlt : (x < lo)%Q).
    { destruct (Qlt_le_dec x lo) as [Hlt|Hge]; [exact Hlt|].
      apply Qle_bool_iff in Hge. congruence. }
    destruct (Qle_bool hi lo) eqn:H1; [exact Hhi|lra].
Qed.

(** The jitter of a draw of [Math.random()] stays within a hair of
    [-0.1, 0.1]. *)
Lemma jitter_range (draw : Q) :
  (0 <= draw -> draw < 1 -> -0.1001 <= jitter draw /\ jitter draw <= 0.1001)%Q.
Proof.
  intros H0 H1. unfold jitter, sub, mul.
  assert (C2 : (0.2 <= dbl 0.2 /\ dbl 0.2 <= 0.20001)%Q)
    by (split; apply Qle_bool_iff; vm_compute; reflexivity).
  assert (C1 : (0.1 <= dbl 0.1 /\ dbl 0.1 <= 0.10001)%Q)
    by (split; apply Qle_bool_iff; vm_compute; reflexivity).
  set (c2 := dbl 0.2) in *. set (c1 := dbl 0.1) in *.
  assert (Hx : (0 <= draw * c2 /\ draw * c2 <= 0.20001)%Q) by (split; nra).
  destruct (double_error (draw * c2)) as [Hm _].
  specialize (Hm (proj1 Hx)). set (m := double (draw * c2)) in *.
  destruct (double_error (m - c1)) as [Hpos Hneg].
  destruct (Qlt_le_dec (m - c1) 0) as [Hy|Hy].
  - specialize (Hneg ltac:(lra)). split; lra.
  - specialize (Hpos Hy). split; lra.
Qed.

Lemma score_direct_at_most (optimization : Optimization) (draw : Q) :
  (0 <= draw -> draw < 1 ->
   scoreTransmissionMethod "DIRECT_SOCKET_CONNECTION" optimization draw <= 0.76)%Q.
Proof.
  intros H0 H1. unfold scoreTransmissionMethod. simpl String.eqb. cbv iota.
  destruct (jitter_range draw H0 H1) as [Jlo Jhi].
  assert (B : (0.64 <= add (dbl 0.5) (dbl 0.15)
               /\ add (dbl 0.5) (dbl 0.15) <= 0.6501)%Q)
    by (split; apply Qle_bool_iff; vm_compute; reflexivity).
  set (base := add (dbl 0.5) (dbl 0.15)) in *. set (j := jitter draw) in *.
  apply clamp_le; [|pose proof dbl_0; lra].
  unfold add at 1. destruct (double_error (base + j)) as [Hpos _].
  specialize (Hpos ltac:(lra)). lra.
Qed.

Lemma score_wave_at_least (optimization : Optimization) (draw : Q) :
  (0 <= draw -> draw < 1 ->
   0.78 <= scoreTransmissionMethod "WAVE_FUNCTION_TRANSMISSION" optimization draw)%Q.
Proof.
  intros H0 H1. unfold scoreTransmissionMethod. simpl String.eqb. cbv iota.
  destruct (jitter_range draw H0 H1) as [Jlo Jhi].
  assert (B : (0.8999 <= add (dbl 0.5) (dbl 0.4)
               /\ add (dbl 0.5) (dbl 0.4) <= 0.91)%Q)
    by (split; apply Qle_bool_iff; vm_compute; reflexivity).
  set (base := add (dbl 0.5) (dbl 0.4)) in *. set (j := jitter draw) in *.
  apply clamp_ge; [|pose proof dbl_1; lra].
  unfold add at 1. destruct (double_error (base + j)) as [Hpos _].
  specialize (Hpos ltac:(lra)). lra.
Qed.



(** ** Messages *)

Lemma dropWhile_nil_iff {A} (p : A -> bool) (l : list A) :
  dropWhile p l = [] <-> forallb p l = true.
Proof.
  induction l as [|x l IH]; simpl; [tauto|].
  destruct (p x); simpl; [exact IH|]. split; discriminate.
Qed.

Lemma dropWhile_head {A} (p : A -> bool) (l : list A) x rest :
  dropWhile p l = x :: rest -> p x = false.
Proof.
  induction l as [|y l IH]; simpl; [discriminate|].
  destruct (p y) eqn:Hy; [exact IH|]. intros E. inversion E; subst. exact Hy.
Qed.

Lemma forallb_false_elem {A} (p : A -> bool) (l : list A) :
  forallb p l = false -> exists c, In c l /\ p c = false.
Proof.
  induction l as [|x l IH]; simpl; [discriminate|].
  destruct (p x) eqn:Hx; simpl.
  - intros H. destruct (IH H) as [c [Hin Hc]]. exists c. tauto.
  - intros _. exists x. tauto.
Qed.

(** [trim] leaves nothing exactly when every unit is white space. *)
Lemma trim_empty_iff (s : jsstring) :
  length (trim s) = 0 <-> forallb isWhiteSpace s = true.
Proof.
  unfold trim. rewrite length_rev. split.
  - intros H. apply length_zero_iff_nil in H.
    apply dropWhile_nil_iff in H. rewrite forallb_forall in H.
    destruct (dropWhile isWhiteSpace s) as [|x rest] eqn:E.
    + apply dropWhile_nil_iff. exact E.
    + apply dropWhile_head in E as Hx.
      rewrite (H x) in Hx; [discriminate|].
      apply in_rev. rewrite rev_involutive. left. reflexivity.
  - intros H. apply dropWhile_nil_iff in H. rewrite H. reflexivity.
Qed.

(** X2: [validateMessage] accepts a message exactly when it has a unit
    that is not white space and at most 1000 units; a message it accepts
    splits into at least one and at most seven parts. *)
Theorem validateMessage_accepts (m : jsstring) :
  (mv_valid (validateMessage m) = true
   <-> (exists c, In c m /\ isWhiteSpace c = false) /\ length m <= 1000)
  /\ (mv_valid (validateMessage m) = true ->
      1 <= length (splitMessage m) /\ length (splitMessage m) <= 7).
Proof.
  assert (Hiff : mv_valid (validateMessage m) = true
                 <-> (exists c, In c m /\ isWhiteSpace c = false)
                     /\ length m <= 1000).
  { unfold validateMessage, config.MAX_MESSAGE_LENGTH.
    destruct (Nat.eqb_spec (length m) 0) as [H0|H0]; simpl.
    - apply length_zero_iff_nil in H0. subst m. split; [discriminate|].
      intros [[c [[] _]] _].
    - destruct (Nat.eqb_spec (length (trim m)) 0) as [Ht|Ht]; simpl.
      + apply trim_empty_iff in Ht. rewrite forallb_forall in Ht.
        split; [discriminate|]. intros [[c [Hin Hc]] _].
        rewrite (Ht c Hin) in Hc. discriminate.
      + assert (Hex : exists c, In c m /\ isWhiteSpace c = false).
        { destruct (forallb isWhiteSpace m) eqn:Hall.
          - apply trim_empty_iff in Hall. contradiction.
          - apply forallb_false_elem. exact Hall. }
        destruct (Nat.ltb_spec 1000 (length m)); simpl.
        * split; [discriminate|]. intros [_ Hlen]. lia.
        * split; [intros _; split; [exact Hex|lia]|reflexivity]. }
  split; [exact Hiff|].
  intros Hv. apply Hiff in Hv as [[c [Hin _]] Hlen].
  assert (Hpos : 0 < length m) by (destruct m; [contradiction|simpl; lia]).
  assert (E : length (splitMessage m) = (length m + 159) / 160).
  { unfold splitMessage. rewrite splitMessage_loop_length.
    unfold ceil_div, maxLength. cbn [length Nat.add].
    replace (length m - 0 + 160 - 1) with (length m + 159) by lia. reflexivity. }
  rewrite E.
  pose proof (Nat.div_mod_eq (length m + 159) 160) as D.
  pose proof (Nat.mod_upper_bound (length m + 159) 160 ltac:(lia)) as B.
  remember ((length m + 159) / 160) as q. remember ((length m + 159) mod 160) as r.
  lia.
Qed.

Lemma validateMessage_accepts_witness :
  1 <= length (splitMessage (lit "Hello")) /\ length (splitMessage (lit "Hello")) <= 7.
Proof.
  apply (proj2 (validateMessage_accepts (lit "Hello"))). reflexivity.
Defined.

(** Every element of the array the loop returns was there before or is
    the chunk of 160 units that starts at a multiple of 160 past [i]. *)
Lemma splitMessage_loop_lookup (m : jsstring) (i : nat) (parts : list jsstring) :
  forall j part,
    splitMessage_loop m i parts !! j = Some part ->
    parts !! j = Some part
    \/ exists t, j = length parts + t
                 /\ part = take 160 (drop (i + 160 * t) m)
                 /\ i + 160 * t < length m.
Proof.
  funelim (splitMessage_loop m i parts); intros j part Hj.
  - match goal with
    | IH : forall j part, _ -> _ \/ _ |- _ => destruct (IH j part Hj) as [Hin|Hnew]
    end.
    + apply lookup_app_Some in Hin as [Hin|[Hge Hin]]; [left; exact Hin|].
      right. exists 0.
      apply list_lookup_singleton_Some in Hin as [Hd <-].
      rewrite substring_chunk.
      replace (i + 160 * 0) with i by lia. unfold jsstring in *.
      split; [lia|]. split; [reflexivity|lia].
    + destruct Hnew as (t & Hjt & Hpart & Hlt). right. exists (S t).
      rewrite length_app in Hjt. simpl in Hjt. unfold maxLength, jsstring in *.
      replace (i + 160 * S t) with (i + 160 + 160 * t) by lia.
      split; [lia|]. split; assumption.
  - left. exact Hj.
Qed.

(** X3: the [j]-th piece of [splitMessage m] is the 160 units of [m]
    from offset [160 * j] (fewer at the end of [m]); no piece is empty and
    every piece but the last has exactly 160 units. *)
Theorem splitMessage_piece_shape (m : jsstring) (j : nat) (piece : jsstring) :
  splitMessage m !! j = Some piece ->
  piece = take 160 (drop (160 * j) m)
  /\ 0 < length piece
  /\ (S j < length (splitMessage m) -> length piece = 160).
Proof.
  intros Hj. unfold splitMessage in *.
  destruct (splitMessage_loop_lookup m 0 [] j piece Hj) as [Hin|(t & Hjt & Hp & Hlt)];
    [rewrite lookup_nil in Hin; discriminate|].
  simpl in Hjt. subst t. simpl in Hp, Hlt.
  split; [exact Hp|]. subst piece. rewrite length_take, length_drop.
  split; [lia|].
  rewrite splitMessage_loop_length. simpl length. intros Hlast.
  assert (Hn : ~ ceil_div (length m - 0) maxLength <= S j) by lia.
  rewrite ceil_div_least in Hn. unfold maxLength in Hn. lia.
Qed.

Lemma splitMessage_piece_shape_witness :
  let piece := map N.of_nat (seq 160 160) in
  splitMessage long_message !! 1 = Some piece
  /\ piece = take 160 (drop (160 * 1) long_message)
  /\ length (splitMessage long_message) = 3
  /\ length piece = 160.
Proof.
  cbn zeta.
  assert (H : splitMessage long_message !! 1 = Some (map N.of_nat (seq 160 160)))
    by reflexivity.
  assert (L : length (splitMessage long_message) = 3) by reflexivity.
  destruct (splitMessage_piece_shape long_message 1 _ H) as (Hp & _ & Hfull).
  split; [exact H|]. split; [exact Hp|]. split; [exact L|].
  apply Hfull. rewrite L. lia.
Defined.

(** ** Countries, priorities and routes *)

(** [detectCountry] decided by the first three or four units. *)
Lemma detectCountry_cases (p : jsstring) :
  (startsWith p (lit "+92") = true /\ detectCountry p = "PAKISTAN"%string)
  \/ (startsWith p (lit "+1") = true /\ detectCountry p = "USA"%string)
  \/ (startsWith p (lit "+44") = true /\ detectCountry p = "UK"%string)
  \/ (startsWith p (lit "+971") = true /\ detectCountry p = "UAE"%string)
  \/ (startsWith p (lit "+966") = true /\ detectCountry p = "SAUDI_ARABIA"%string)
  \/ (startsWith p (lit "+91") = true /\ detectCountry p = "INDIA"%string)
  \/ (startsWith p (lit "+86") = true /\ detectCountry p = "CHINA"%string)
  \/ (Forall (fun entry => startsWith p (fst entry) = false) countryCodes
      /\ detectCountry p = "INTERNATIONAL"%string).
Proof.
  unfold detectCountry, countryCodes. cbn [detectCountry_in].
  destruct (startsWith p (lit "+92")) eqn:H1; [tauto|].
  destruct (startsWith p (lit "+1")) eqn:H2; [tauto|].
  destruct (startsWith p (lit "+44")) eqn:H3; [tauto|].
  destruct (startsWith p (lit "+971")) eqn:H4; [tauto|].
  destruct (startsWith p (lit "+966")) eqn:H5; [tauto|].
  destruct (startsWith p (lit "+91")) eqn:H6; [tauto|].
  destruct (startsWith p (lit "+86")) eqn:H7; [tauto|].
  do 7 right. split; [|reflexivity].
  repeat constructor; assumption.
Qed.

Ltac by_country p :=
  destruct (detectCountry_cases p)
    as [[Hm Hc]|[[Hm Hc]|[[Hm Hc]|[[Hm Hc]|[[Hm Hc]|[[Hm Hc]|[[Hm Hc]|[Hm Hc]]]]]]]].

Ltac decide_closed :=
  first [ reflexivity
        | apply Qle_bool_iff; vm_compute; reflexivity
        | apply Qeq_bool_iff; vm_compute; reflexivity ].

(** Decides [lhs <-> rhs] when [lhs] is a closed strict inequality of
    numbers and [rhs] a disjunction of closed equations. *)
Ltac decide_priority_iff :=
  split; intros H;
  first [ left; reflexivity
        | right; left; reflexivity
        | right; right; reflexivity
        | vm_compute; reflexivity
        | exfalso; vm_compute in H; discriminate H
        | exfalso; destruct H as [H|[H|H]]; discriminate H ].

(** X4: the priority of a transmission lies between 0.9 and 3, and it
    exceeds 1, which is what earns AI_OPTIMIZED_ROUTING its bonus, exactly
    when the number is from PAKISTAN or the USA or the message contains one
    of the urgency words. *)
Theorem calculatePriority_range (lower : jsstring -> jsstring)
    (p m : jsstring) :
  (dbl 0.9 <= calculatePriority lower p m /\ calculatePriority lower p m <= 3)%Q
  /\ ((1 < calculatePriority lower p m)%Q
      <-> detectCountry p = "PAKISTAN"%string
          \/ detectCountry p = "USA"%string
          \/ existsb (includes (toLowerCase lower m)) urgentWords = true).
Proof.
  unfold calculatePriority, urgentWords. cbn [fold_left existsb].
  set (b1 := includes (toLowerCase lower m) (lit "urgent")).
  set (b2 := includes (toLowerCase lower m) (lit "emergency")).
  set (b3 := includes (toLowerCase lower m) (lit "asap")).
  set (b4 := includes (toLowerCase lower m) (lit "immediately")).
  clearbody b1 b2 b3 b4.
  by_country p; rewrite Hc; clear Hc Hm;
    destruct b1, b2, b3, b4;
    (split; [split; decide_closed | decide_priority_iff]).
Qed.

(** X5: the success probability lies between 0.78 and 0.9075 (to within
    [1e-15], the values being binary64), so the cap at 0.99 never applies:
    the value is [0.85 * weight + 0.1] as computed. *)
Theorem calculateSuccessProbability_range (p : jsstring) :
  (0.78 - 1e-15 <= calculateSuccessProbability p
   /\ calculateSuccessProbability p <= 0.9075 + 1e-15
   /\ calculateSuccessProbability p < dbl 0.99)%Q
  /\ calculateSuccessProbability p
     = add (mul (dbl 0.85)
              (lookup_or countryProbabilities (detectCountry p) (dbl 0.85)))
         (dbl 0.1).
Proof.
  unfold calculateSuccessProbability.
  by_country p; rewrite Hc; clear Hc Hm;
    (split; [split; [|split]; decide_closed | reflexivity]).
Qed.

(** X6: the route table and the network table do not cover the
    country table.  [calculateBestRoute] falls back to DEFAULT_AI_ROUTE
    exactly for the numbers of UK, INDIA and CHINA, and [simulateNetwork]
    to GLOBAL_AI_NETWORK exactly for those of INDIA and CHINA and for the
    numbers that match no prefix. *)
Theorem route_and_network_fallbacks (p : jsstring) :
  (calculateBestRoute p = "DEFAULT_AI_ROUTE"%string
   <-> In (detectCountry p) ["UK"; "INDIA"; "CHINA"]%string)
  /\ (simulateNetwork p = "GLOBAL_AI_NETWORK"%string
      <-> In (detectCountry p) ["INDIA"; "CHINA"; "INTERNATIONAL"]%string).
Proof.
  unfold calculateBestRoute.
  by_country p; rewrite Hc.
  1-7: apply startsWith_inv in Hm as [rest ->]; split; split; intros H;
       first [ reflexivity
             | simpl; tauto
             | exfalso; simpl in H;
               repeat (destruct H as [H|H]; [discriminate H|]); exact H
             | exfalso; discriminate H ].
  split.
  - split; intros H; [discriminate H|].
    simpl in H. repeat (destruct H as [H|H]; [discriminate H|]). contradiction.
  - split; intros _; [simpl; tauto|].
    unfold countryCodes in Hm. rewrite !Forall_cons in Hm. cbn [fst] in Hm.
    destruct Hm as (H1 & H2 & H3 & H4 & H5 & _).
    unfold simulateNetwork, networks. cbn [simulateNetwork_in].
    rewrite H1, H2, H3, H4, H5. reflexivity.
Qed.

(** ** The content hash *)

Lemma toInt32_shift (z k : Z) :
  toInt32 (z + k * 4294967296) = toInt32 z.
Proof. unfold toInt32. rewrite Z_mod_plus_full. reflexivity. Qed.

Lemma toInt32_repr (z : Z) : exists k, toInt32 z = (z + k * 4294967296)%Z.
Proof.
  unfold toInt32. pose proof (Z.div_mod z 4294967296 ltac:(lia)) as E.
  destruct (2147483648 <=? z mod 4294967296)%Z.
  - exists (- (z / 4294967296) - 1)%Z. lia.
  - exists (- (z / 4294967296))%Z. lia.
Qed.

Lemma toInt32_range (z : Z) : (-2147483648 <= toInt32 z < 2147483648)%Z.
Proof.
  unfold toInt32. pose proof (Z.mod_pos_bound z 4294967296 ltac:(lia)) as B.
  destruct (Z.leb_spec 2147483648 (z mod 4294967296)); lia.
Qed.

Lemma hash_loop_poly (data : jsstring) (hash x : Z) :
  hash = toInt32 x ->
  fold_left
    (fun hash char => toInt32 (toInt32 (hash * 32) - hash + Z.of_N char)%Z)
    data hash
  = toInt32 (fold_left (fun acc char => (31 * acc + Z.of_N char)%Z) data x).
Proof.
  revert hash x. induction data as [|c data IH]; intros hash x Hx; simpl.
  - exact Hx.
  - apply IH. subst hash.
    destruct (toInt32_repr x) as [k Hk].
    destruct (toInt32_repr (toInt32 x * 32)) as [k' Hk'].
    rewrite Hk', Hk.
    replace ((x + k * 4294967296) * 32 + k' * 4294967296
             - (x + k * 4294967296) + Z.of_N c)%Z
      with (31 * x + Z.of_N c + (31 * k + k') * 4294967296)%Z by lia.
    apply toInt32_shift.
Qed.

(** X7: [calculateHash] is the polynomial hash with multiplier 31: the
    base-36 rendering of [c0 * 31^(n-1) + ... + c(n-1)] wrapped to a signed
    32-bit integer. *)
Theorem calculateHash_polynomial (data : jsstring) :
  calculateHash data = toString36 (toInt32 (poly31 data))
  /\ (-2147483648 <= toInt32 (poly31 data) < 2147483648)%Z
  /\ forall char, poly31 (data ++ [char]) = (31 * poly31 data + Z.of_N char)%Z.
Proof.
  split; [|split].
  - unfold calculateHash, poly31. f_equal. apply hash_loop_poly. reflexivity.
  - apply toInt32_range.
  - intros char. unfold poly31. rewrite fold_left_app. reflexivity.
Qed.

(** ** What the executor returns *)

Lemma substring_prefix (m : jsstring) (n : nat) : substring m 0 n = take n m.
Proof.
  unfold substring.
  replace (Nat.min 0 (length m)) with 0 by lia.
  set (b := Nat.min n (length m)).
  replace (Nat.min 0 b) with 0 by lia.
  replace (Nat.max 0 b - 0) with b by lia.
  rewrite drop_0. subst b.
  destruct (le_lt_dec n (length m)).
  - replace (Nat.min n (length m)) with n by lia. reflexivity.
  - replace (Nat.min n (length m)) with (length m) by lia.
    rewrite !take_ge; [reflexivity|lia|lia].
Qed.

(** The result of a call on two strings, field by field. *)
Lemma processSMSTransmission_strings h (p m : jsstring) :
  exists i method,
    config.TRANSMISSION_METHODS !! i = Some method
    /\ selectBestTransmissionMethod (scoreDraw h)
         (mkOptimization p (detectCountry p) (length m)
            (length (splitMessage m)) (detectEncoding m)
            (calculatePriority (unicodeLower h) p m) (calculateBestRoute p)
            (calculateTransmissionWindow (hours h))
            (calculateSuccessProbability p)) = Returns method
    /\ processSMSTransmission h (Some p) (Some m)
       = Returns
           {| tx_success := true;
              tx_transmissionId := transmissionIdDraw h;
              tx_phoneNumber := Some p;
              tx_message :=
                Some (substring m 0 50 ++ (if 50 <? length m then lit "..." else []));
              tx_error := None;
              tx_timeTaken := (endTime h - startTime h)%Z;
              tx_method := method;
              tx_parts := Some (length (splitMessage m));
              tx_status := "DELIVERED";
              tx_route := tr_route (transmitSMS h p method);
              tx_transmission := Some (transmitSMS h p method) |}.
Proof.
  destruct (selectBest_over_first_max config.TRANSMISSION_METHODS (scoreDraw h)
              (mkOptimization p (detectCountry p) (length m)
                 (length (splitMessage m)) (detectEncoding m)
                 (calculatePriority (unicodeLower h) p m) (calculateBestRoute p)
                 (calculateTransmissionWindow (hours h))
                 (calculateSuccessProbability p)))
    as (i & method & Hsel & Hi & _); [discriminate|].
  exists i, method. split; [exact Hi|]. split; [exact Hsel|].
  unfold processSMSTransmission, transmission_steps.
  cbn [optimizeTransmission bind]. unfold selectBestTransmissionMethod.
  rewrite Hsel. reflexivity.
Qed.

(** Whether the executor succeeds is decided by its arguments being
    strings. *)
Lemma processSMSTransmission_result h (phoneNumber message : option jsstring) :
  exists result,
    processSMSTransmission h phoneNumber message = Returns result
    /\ (tx_success result = true
        <-> is_Some phoneNumber /\ is_Some message).
Proof.
  destruct phoneNumber as [p|], message as [m|].
  - destruct (processSMSTransmission_strings h p m) as (i & method & _ & _ & ->).
    eexists. split; [reflexivity|]. simpl. split; [intros _; split; eauto|reflexivity].
  - eexists. split; [reflexivity|]. simpl.
    split; [discriminate|]. intros [_ [x Hx]]. discriminate Hx.
  - eexists. split; [reflexivity|]. simpl.
    split; [discriminate|]. intros [[x Hx] _]. discriminate Hx.
  - eexists. split; [reflexivity|]. simpl.
    split; [discriminate|]. intros [[x Hx] _]. discriminate Hx.
Qed.

(** ** A failed send and its retry *)

Lemma with_stats_same g : with_stats g (systemStats g) = g.
Proof. destruct g; reflexivity. Qed.




(** X8: for a phone number and a message that are strings the
    executor reports DELIVERED by one of the five configured methods, with
    [ceil(len/160)] parts, a preview of the first 50 units of the message
    (followed by three dots when the message is longer), the network of
    the number's prefix and a delivery between 400 and 1200 ms after the
    clock reading. *)
Theorem delivered_result_shape (h : Host) (p m : jsstring) :
  exists result details,
    processSMSTransmission h (Some p) (Some m) = Returns result
    /\ tx_success result = true
    /\ tx_status result = "DELIVERED"%string
    /\ tx_error result = None
    /\ tx_phoneNumber result = Some p
    /\ In (tx_method result) config.TRANSMISSION_METHODS
    /\ tx_parts result = Some (ceil_div (length m) 160)
    /\ tx_message result
       = Some (take 50 m ++ (if 50 <? length m then lit "..." else []))
    /\ tx_transmission result = Some details
    /\ tr_transmissionMethod details = tx_method result
    /\ tr_network details = simulateNetwork p
    /\ (400 <= tr_deliveryTime details - deliveryClock h <= 1200)%Z.
Proof.
  destruct (processSMSTransmission_strings h p m) as (i & method & Hi & _ & ->).
  eexists. eexists. split; [reflexivity|]. cbn.
  assert (Hin : In method config.TRANSMISSION_METHODS).
  { apply list_elem_of_In. eapply list_elem_of_lookup_2. exact Hi. }
  repeat split.
  - exact Hin.
  - f_equal. unfold splitMessage. rewrite splitMessage_loop_length.
    cbn [length Nat.add]. rewrite Nat.sub_0_r. reflexivity.
  - rewrite substring_prefix. reflexivity.
  - simpl in Hin. unfold getTransmissionTime.
    repeat (destruct Hin as [<-|Hin]; [cbn; lia|]). contradiction.
  - simpl in Hin. unfold getTransmissionTime.
    repeat (destruct Hin as [<-|Hin]; [cbn; lia|]). contradiction.
Qed.

(** ** The session of a user, event by event *)

Lemma validatePhoneNumber_country (p : jsstring) :
  pv_valid (validatePhoneNumber p) = true ->
  pv_country (validatePhoneNumber p) = detectCountry p.
Proof.
  unfold validatePhoneNumber. destruct (phoneRegex_test p); simpl;
    [reflexivity|discriminate].
Qed.

(** The monitoring tick keeps exactly the sessions that have not
    expired. *)
Lemma monitoring_lookup h g u :
  userSessions (after (handle h g MonitoringTick)) !! u
  = match userSessions g !! u with
    | Some s => if expired (clock h) s then None else Some s
    | None => None
    end.
Proof.
  simpl. destruct (userSessions g !! u) as [s|] eqn:Hs.
  - destruct (expired (clock h) s) eqn:E.
    + apply map_lookup_filter_None. right. intros s' Hs' Hp.
      rewrite Hs in Hs'. inversion Hs'; subst s'. simpl in Hp. congruence.
    + apply map_lookup_filter_Some. split; [exact Hs|exact E].
  - apply map_lookup_filter_None. left. exact Hs.
Qed.

Lemma set_step_other g sender value g' u :
  sender <> u ->
  set_step g sender value = Returns g' ->
  userSessions g' !! u = userSessions g !! u.
Proof.
  intros Hne. unfold set_step.
  destruct (userSessions g !! sender); intros H; inversion H; subst.
  simpl. apply lookup_insert_ne. exact Hne.
Qed.

Lemma sendSMS_other h g sender u :
  sender <> u ->
  userSessions (after (sendSMS h g sender)) !! u = userSessions g !! u.
Proof.
  intros Hne. unfold sendSMS, sendSMS_with.
  destruct (userSessions g !! sender); [|reflexivity].
  destruct (processSMSTransmission h _ _) as [result|err]; [|reflexivity].
  destruct (tx_success result); simpl; apply lookup_delete_ne; exact Hne.
Qed.

(** The update of one user leaves the session of another alone. *)
Lemma update_other_user h g sender upd u :
  sender <> u ->
  userSessions (after (handle_update h g sender upd)) !! u = userSessions g !! u.
Proof.
  intros Hne. destruct upd; simpl; try reflexivity;
    try (apply lookup_insert_ne; exact Hne).
  - apply handleTextMessage_other. exact Hne.
  - unfold handleCallbackQuery.
    repeat match goal with
           | |- context [if ?b then _ else _] => destruct b
           end;
      try reflexivity.
    + apply sendSMS_other. exact Hne.
    + destruct (set_step g sender _) as [g'|err] eqn:Hs; [|reflexivity].
      simpl. eapply set_step_other; eassumption.
    + destruct (set_step g sender _) as [g'|err] eqn:Hs; [|reflexivity].
      simpl. eapply set_step_other; eassumption.
    + destruct (set_step g sender _) as [g'|err] eqn:Hs; [|reflexivity].
      simpl. eapply set_step_other; eassumption.
    + simpl. apply lookup_delete_ne. exact Hne.
Qed.

Lemma text_session_change h g u text :
  session_change h (FromUser u (Text text)) u (userSessions g !! u)
    (userSessions (after (handleTextMessage h g u text)) !! u).
Proof.
  unfold handleTextMessage.
  destruct (userSessions g !! u) as [s|] eqn:Hs; [|simpl; rewrite Hs; constructor].
  destruct (String.eqb_spec (step s) "awaiting_number") as [E|_].
  - unfold processPhoneNumber.
    destruct (pv_valid (validatePhoneNumber text)) eqn:Hv; simpl.
    + rewrite lookup_insert_eq, (validatePhoneNumber_country _ Hv).
      apply phone_accepted; [reflexivity|exact E|exact Hv].
    + rewrite Hs. constructor.
  - destruct (String.eqb_spec (step s) "awaiting_message") as [E|_].
    + unfold processMessage.
      destruct (mv_valid (validateMessage text)) eqn:Hv; simpl.
      * rewrite lookup_insert_eq.
        apply message_accepted; [reflexivity|exact E|exact Hv].
      * rewrite Hs. constructor.
    + repeat match goal with
             | |- context [if ?b then _ else _] => destruct b
             end; simpl; rewrite Hs; constructor.
Qed.

Lemma button_session_change h g u action :
  session_change h (FromUser u (CallbackQuery action)) u (userSessions g !! u)
    (userSessions (after (handleCallbackQuery h g u action)) !! u).
Proof.
  unfold handleCallbackQuery.
  repeat match goal with
         | |- context [if String.eqb action ?a then _ else _] =>
             destruct (String.eqb_spec action a) as [?E|?N]
         end;
    try (simpl; constructor).
  - (* Send Now *)
    unfold sendSMS.
    destruct (userSessions g !! u) as [s|] eqn:Hs; [|simpl; rewrite Hs; constructor].
    destruct (processSMSTransmission h _ _) as [result|err];
      [|simpl; rewrite Hs; constructor].
    unfold sendSMS_with. destruct (tx_success result); simpl;
      rewrite lookup_delete_eq; apply (closed _ _ _ s action);
      first [reflexivity|right; assumption].
  - (* Edit Message *)
    unfold set_step.
    destruct (userSessions g !! u) as [s|] eqn:Hs; simpl;
      [|rewrite Hs; constructor].
    rewrite lookup_insert_eq.
    apply (button_pressed _ _ _ s action); [reflexivity|subst action; reflexivity].
  - (* Change Number *)
    unfold set_step.
    destruct (userSessions g !! u) as [s|] eqn:Hs; simpl;
      [|rewrite Hs; constructor].
    rewrite lookup_insert_eq.
    apply (button_pressed _ _ _ s action); [reflexivity|subst action; reflexivity].
  - (* Manual Entry *)
    unfold set_step.
    destruct (userSessions g !! u) as [s|] eqn:Hs; simpl;
      [|rewrite Hs; constructor].
    rewrite lookup_insert_eq.
    apply (button_pressed _ _ _ s action); [reflexivity|subst action; reflexivity].
  - (* Cancel *)
    simpl. rewrite lookup_delete_eq.
    destruct (userSessions g !! u) as [s|]; [|constructor].
    apply (closed _ _ _ s action); [reflexivity|left; assumption].
Qed.

(** Every write to the session of a user is one of the seven ways of
    [session_change]. *)
Lemma handle_session_change h g e u :
  session_change h e u (userSessions g !! u)
    (userSessions (after (handle h g e)) !! u).
Proof.
  destruct e as [sender upd| | | |].
  - simpl. rewrite after_bot_catch.
    destruct (decide (sender = u)) as [->|Hne];
      [|rewrite update_other_user by exact Hne; constructor].
    destruct upd; simpl; try constructor;
      try (rewrite lookup_insert_eq; eapply started; reflexivity).
    + apply text_session_change.
    + apply button_session_change.
  - simpl. destruct (retry_timer_after h g) as (st & ts & ->). constructor.
  - simpl. rewrite processTransmissionQueue_eq. constructor.
  - rewrite monitoring_lookup.
    destruct (userSessions g !! u) as [s|]; [|constructor].
    destruct (expired (clock h) s) eqn:E; [|constructor].
    apply purged; [reflexivity|exact E].
  - constructor.
Qed.

(** X9: the session of a user is written only by an update of that user
    or by the monitoring tick: any other event leaves it as it was. *)
Theorem session_written_by_owner_only (h : Host) (g : Gateway) (e : Event) (u : Z) :
  (forall upd, e <> FromUser u upd) ->
  e <> MonitoringTick ->
  userSessions (after (handle h g e)) !! u = userSessions g !! u.
Proof.
  intros Hown Hmon.
  pose proof (handle_session_change h g e u) as H.
  inversion H as [o Ho Ho'|upd first md o He _ Ho|s p He _ _ Ho
                  |s m He _ _ Ho|s action v He _ Ho|s action He _ Ho
                  |s He _ Ho];
    try (exfalso; eapply Hown; eassumption);
    try (exfalso; apply Hmon; assumption).
  reflexivity.
Qed.

Lemma session_written_by_owner_only_witness :
  userSessions
    (after (handle quiet_host bulk_started
              (FromUser 8 (CallbackQuery "cancel")))) !! 7%Z
  = userSessions bulk_started !! 7%Z.
Proof.
  apply session_written_by_owner_only; [|discriminate].
  intros upd E. inversion E.
Defined.

(** ** Life time of a session *)

(** While the user starts no new flow, the session keeps its time stamp
    and its mode, or is gone. *)
Lemma session_change_keeps_timestamp h e u o1 o2 (T : Z) (M : string) :
  session_change h e u o1 o2 ->
  (forall upd, e = FromUser u upd -> flow_start upd = None) ->
  match o1 with
  | Some s => timestamp s = T /\ mode s = M
  | None => True
  end ->
  match o2 with
  | Some s => timestamp s = T /\ mode s = M
  | None => True
  end.
Proof.
  intros H Hno Hbefore.
  destruct H as [o|upd first md o He Hst|s p He _ _|s m He _ _
                 |s action v He _|s action He _|s He _];
    try exact Hbefore; try exact I.
  rewrite (Hno _ He) in Hst. discriminate.
Qed.

Lemma handle_keeps_timestamp h g e u (T : Z) (M : string) :
  (forall upd, e = FromUser u upd -> flow_start upd = None) ->
  match userSessions g !! u with
  | Some s => timestamp s = T /\ mode s = M
  | None => True
  end ->
  match userSessions (after (handle h g e)) !! u with
  | Some s => timestamp s = T /\ mode s = M
  | None => True
  end.
Proof.
  intros Hno. apply (session_change_keeps_timestamp h e u); [|exact Hno].
  apply handle_session_change.
Qed.

Lemma run_keeps_timestamp events g u (T : Z) (M : string) :
  (forall h upd, In (h, FromUser u upd) events -> flow_start upd = None) ->
  match userSessions g !! u with
  | Some s => timestamp s = T /\ mode s = M
  | None => True
  end ->
  match userSessions (run g events) !! u with
  | Some s => timestamp s = T /\ mode s = M
  | None => True
  end.
Proof.
  revert g. induction events as [|[h e] events IH]; intros g Hno Hg; simpl.
  - exact Hg.
  - apply IH.
    + intros h' upd Hin. apply (Hno h' upd). right. exact Hin.
    + apply handle_keeps_timestamp; [|exact Hg].
      intros upd ->. apply (Hno h upd). left. reflexivity.
Qed.

(** X10: no text turn and no button refreshes the time stamp of a
    session: whatever the user does in between short of starting a new
    flow, the session keeps the time stamp and mode it started with, and
    the first monitoring tick more than five minutes after the flow
    started deletes it. *)
Theorem session_expires_despite_activity (g : Gateway) (u : Z) (s : Session)
    (events : list (Host * Event)) (hm : Host) :
  userSessions g !! u = Some s ->
  (forall h upd, In (h, FromUser u upd) events -> flow_start upd = None) ->
  (forall s', userSessions (run g events) !! u = Some s' ->
     timestamp s' = timestamp s /\ mode s' = mode s)
  /\ ((300000 < clock hm - timestamp s)%Z ->
      userSessions (run g (events ++ [(hm, MonitoringTick)])) !! u = None).
Proof.
  intros Hs Hno.
  pose proof (run_keeps_timestamp events g u (timestamp s) (mode s) Hno) as Hrun.
  rewrite Hs in Hrun. specialize (Hrun (conj eq_refl eq_refl)).
  split.
  - intros s' Hs'. rewrite Hs' in Hrun. exact Hrun.
  - intros Hold.
    assert (Hsplit : forall evs g0, run g0 (evs ++ [(hm, MonitoringTick)])
                       = after (handle hm (run g0 evs) MonitoringTick)).
    { induction evs as [|[h e] evs IH]; intros g0; simpl; [reflexivity|apply IH]. }
    rewrite Hsplit, monitoring_lookup.
    destruct (userSessions (run g events) !! u) as [s'|]; [|reflexivity].
    destruct Hrun as [Ht _]. unfold expired. rewrite Ht.
    destruct (Z.ltb_spec 300000 (clock hm - timestamp s)); [reflexivity|lia].
Qed.

Lemma session_expires_despite_activity_witness :
  userSessions
    (run bulk_started
       [ (quiet_host, FromUser 7 (Text (lit "Hello")));
         (quiet_host, FromUser 7 (CallbackQuery "change_number"));
         (mkHost (fun s => s) "TX_0" 0 0 12 (fun _ => 0.5%Q) 0 0%Q 0%Q 0 0%Q 0%Q
            "t" 300001 0 0, MonitoringTick) ]) !! 7%Z = None.
Proof.
  apply (proj2 (session_expires_despite_activity bulk_started 7
                  (mkSession "awaiting_bulk_numbers" "BULK" emptyData 0)
                  [ (quiet_host, FromUser 7 (Text (lit "Hello")));
                    (quiet_host, FromUser 7 (CallbackQuery "change_number")) ]
                  (mkHost (fun s => s) "TX_0" 0 0 12 (fun _ => 0.5%Q) 0 0%Q 0%Q 0
                     0%Q 0%Q "t" 300001 0 0)
                  eq_refl
                  ltac:(intros h upd [E|[E|[]]]; inversion E; reflexivity))).
  reflexivity.
Defined.

(** ** What a session holds *)

Lemma session_change_wellformed h e u o1 o2 :
  session_change h e u o1 o2 ->
  (forall s, o1 = Some s -> session_wellformed s) ->
  forall s, o2 = Some s -> session_wellformed s.
Proof.
  intros H Hwf.
  destruct H as [o|upd first md o He Hst|s p He Hstep Hv|s m He Hstep Hv
                 |s action v He Hv|s action He _|s He _];
    intros s' Hs'; try discriminate Hs'; try (apply Hwf; exact Hs').
  - inversion Hs'; subst s'. clear Hs'.
    destruct upd; simpl in Hst; try discriminate Hst;
      inversion Hst; subst; repeat split; simpl; try tauto; discriminate.
  - inversion Hs'; subst s'. clear Hs'.
    destruct (Hwf s eq_refl) as (Hm & _ & [_ Hd] & _).
    repeat split; simpl; try tauto; try assumption. discriminate.
  - inversion Hs'; subst s'. clear Hs'.
    destruct (Hwf s eq_refl) as (Hm & _ & [Hd _] & _).
    repeat split; simpl; try tauto; try assumption. intros _. eauto.
  - inversion Hs'; subst s'. clear Hs'.
    destruct (Hwf s eq_refl) as (Hm & _ & Hd & _).
    unfold button_step in Hv.
    repeat match type of Hv with
           | (if ?b then _ else _) = _ => destruct b
           end; inversion Hv; subst v;
      repeat split; simpl; try tauto; try apply Hd; discriminate.
Qed.

Lemma run_sessions_wellformed events g :
  (forall u s, userSessions g !! u = Some s -> session_wellformed s) ->
  forall u s, userSessions (run g events) !! u = Some s -> session_wellformed s.
Proof.
  revert g. induction events as [|[h e] events IH]; intros g Hg; simpl.
  - exact Hg.
  - apply IH. intros u s.
    apply (session_change_wellformed h e u (userSessions g !! u)).
    + apply handle_session_change.
    + apply Hg.
Qed.

(** X11: in every state a gateway can reach, a session holds only what
    the validators accepted: a stored phone number matches the pattern and
    is stored with its country, a stored message passed [validateMessage]
    and is stored with its parts; the mode is one of the three modes, the
    step one of five, and a session at [confirm_send] has a message. *)
Theorem sessions_hold_validated_data (start : Z) (events : list (Host * Event))
    (u : Z) (s : Session) :
  userSessions (run (initial start) events) !! u = Some s ->
  session_wellformed s.
Proof.
  apply run_sessions_wellformed. intros u' s' H.
  simpl in H. rewrite lookup_empty in H. discriminate.
Qed.

Lemma sessions_hold_validated_data_witness :
  session_wellformed
    (mkSession "confirm_send" "SINGLE"
       (mkSessionData (Some (lit "+923001234567")) (Some "PAKISTAN")
          (Some (lit "Hello")) (Some [lit "Hello"])) 0).
Proof.
  apply (sessions_hold_validated_data 0
           [ (quiet_host, FromUser 7 CmdSend);
             (quiet_host, FromUser 7 (Text (lit "+923001234567")));
             (quiet_host, FromUser 7 (Text (lit "Hello"))) ] 7).
  reflexivity.
Defined.

(** X12: a text turn never opens or closes a session and never touches
    its mode or time stamp.  It changes the session in two ways only: at
    [awaiting_number] a number that validates is stored with its country
    and the step becomes [awaiting_message]; at [awaiting_message] a
    message that validates is stored with its parts and the step becomes
    [confirm_send]. *)
Theorem text_turn_transitions (h : Host) (g : Gateway) (u : Z) (text : jsstring) :
  match userSessions g !! u with
  | None => userSessions (after (handleTextMessage h g u text)) !! u = None
  | Some s =>
      userSessions (after (handleTextMessage h g u text)) !! u = Some s
      \/ (step s = "awaiting_number"%string
          /\ pv_valid (validatePhoneNumber text) = true
          /\ userSessions (after (handleTextMessage h g u text)) !! u
             = Some (mkSession "awaiting_message" (mode s)
                       (mkSessionData (Some text) (Some (detectCountry text))
                          (sd_message (data s)) (sd_messageParts (data s)))
                       (timestamp s)))
      \/ (step s = "awaiting_message"%string
          /\ mv_valid (validateMessage text) = true
          /\ userSessions (after (handleTextMessage h g u text)) !! u
             = Some (mkSession "confirm_send" (mode s)
                       (mkSessionData (sd_phoneNumber (data s))
                          (sd_country (data s)) (Some text)
                          (Some (splitMessage text)))
                       (timestamp s)))
  end.
Proof.
  pose proof (text_session_change h g u text) as H.
  remember (userSessions g !! u) as o1 eqn:E1.
  remember (userSessions (after (handleTextMessage h g u text)) !! u) as o2 eqn:E2.
  destruct H as [o|upd first md o He Hst|s p He Hstep Hv|s m He Hstep Hv
                 |s action v He Hv|s action He _|s He _];
    try discriminate He.
  - destruct o; [left|]; reflexivity.
  - destruct upd; simpl in Hst; try discriminate Hst; discriminate He.
  - inversion He; subst p. right. left. repeat split; assumption.
  - inversion He; subst m. right. right. repeat split; assumption.
Qed.

(** X13: without a session a text turn is silent and changes
    nothing, Send Now answers that the session expired, Cancel answers as
    usual, and the three buttons that write the step raise a TypeError,
    which the user sees as the generic error; none of them changes the
    gateway. *)
Theorem updates_without_session (h : Host) (g : Gateway) (u : Z) :
  userSessions g !! u = None ->
  (forall text, handle h g (FromUser u (Text text)) = finished g [])
  /\ handle h g (FromUser u (CallbackQuery "send_immediate"))
     = finished g [SessionExpired]
  /\ (after (handle h g (FromUser u (CallbackQuery "cancel"))) = g
      /\ replies (handle h g (FromUser u (CallbackQuery "cancel")))
         = [Edited "Operation cancelled."])
  /\ (forall action v,
        button_step action = Some v ->
        outcome (handle h g (FromUser u (CallbackQuery action)))
        = Throws (mkError "TypeError"
                    "Cannot set properties of undefined (setting 'step')")
        /\ after (handle h g (FromUser u (CallbackQuery action))) = g
        /\ In AnErrorOccurred
             (replies (handle h g (FromUser u (CallbackQuery action))))).
Proof.
  intros Hs. split; [|split; [|split]].
  - intros text. simpl. unfold handleTextMessage. rewrite Hs. reflexivity.
  - simpl. unfold handleCallbackQuery. simpl. unfold sendSMS. rewrite Hs.
    reflexivity.
  - simpl. unfold handleCallbackQuery. simpl. split; [|reflexivity].
    rewrite delete_id by exact Hs. apply with_sessions_same.
  - intros action v Hv. unfold button_step in Hv. simpl.
    destruct (String.eqb_spec action "edit_message") as [->|N1].
    { unfold handleCallbackQuery, set_step. simpl. rewrite Hs. simpl. tauto. }
    destruct (String.eqb_spec action "change_number") as [->|N2].
    { unfold handleCallbackQuery, set_step. simpl. rewrite Hs. simpl. tauto. }
    destruct (String.eqb_spec action "manual_bulk") as [->|N3]; [|discriminate].
    unfold handleCallbackQuery, set_step. simpl. rewrite Hs. simpl. tauto.
Qed.

Lemma updates_without_session_witness :
  handle quiet_host (initial 0) (FromUser 7 (CallbackQuery "send_immediate"))
  = finished (initial 0) [SessionExpired].
Proof.
  apply (proj1 (proj2 (updates_without_session quiet_host (initial 0) 7 eq_refl))).
Defined.

(** ** Counters, retries and the log *)

(** What an event does to the counters, the log and the armed retries:
    nothing, or what a send does, or what a firing retry does. *)
Lemma handle_accounting h g e :
  (systemStats (after (handle h g e)) = systemStats g
   /\ sms_logs (after (handle h g e)) = sms_logs g
   /\ retryTimers (after (handle h g e)) = retryTimers g)
  \/ (exists session result entry,
        processSMSTransmission h (sd_phoneNumber (data session))
          (sd_message (data session)) = Returns result
        /\ systemStats (after (handle h g e))
           = count_attempt (systemStats g) result
        /\ sms_logs (after (handle h g e))
           = Some (append_sms_log (sms_logs g) entry)
        /\ retryTimers (after (handle h g e))
           = if tx_success result then retryTimers g
             else retryTimers g ++ [data session])
  \/ (exists smsData armed result,
        retryTimers g = smsData :: armed
        /\ processSMSTransmission h (sd_phoneNumber smsData) (sd_message smsData)
           = Returns result
        /\ systemStats (after (handle h g e))
           = count_retry (systemStats g) result
        /\ sms_logs (after (handle h g e)) = sms_logs g
        /\ retryTimers (after (handle h g e)) = armed).
Proof.
  destruct e as [u upd| | | |].
  - simpl. rewrite after_bot_catch.
    destruct (on_send_path (FromUser u upd)) eqn:E.
    + rewrite (send_path_update _ _ _ _ E). unfold sendSMS.
      destruct (userSessions g !! u) as [session|]; [|left; repeat split].
      destruct (processSMSTransmission h (sd_phoneNumber (data session))
                  (sd_message (data session))) as [result|err] eqn:Hr;
        [|left; repeat split].
      right. left. exists session, result. eexists. split; [exact Hr|].
      unfold sendSMS_with. destruct (tx_success result); simpl; repeat split.
    + destruct (handle_update_sessions h g u upd E) as [m ->].
      left. repeat split.
  - simpl. unfold retry_timer.
    destruct (retryTimers g) as [|smsData armed] eqn:Ht; [left; repeat split; auto|].
    unfold retryTransmission.
    destruct (processSMSTransmission_result h (sd_phoneNumber smsData)
                (sd_message smsData)) as (result & Hr & _).
    rewrite Hr. simpl. right. right. exists smsData, armed, result.
    repeat split. exact Hr.
  - simpl. rewrite processTransmissionQueue_eq. left. repeat split.
  - left. repeat split.
  - left. repeat split.
Qed.

Lemma handle_keeps_accounts h g e :
  accounts_balanced g -> accounts_balanced (after (handle h g e)).
Proof.
  intros (Hsum & Hs & Hf & Hdoomed & Hlog).
  destruct (handle_accounting h g e)
    as [(Est & Elog & Et)
       |[(session & result & entry & Hr & Est & Elog & Et)
        |(smsData & armed & result & Ht & Hr & Est & Elog & Et)]];
    unfold accounts_balanced; rewrite Est, Elog, Et.
  - repeat split; assumption.
  - destruct (processSMSTransmission_result h (sd_phoneNumber (data session))
                (sd_message (data session))) as (result' & Hr' & Hiff).
    rewrite Hr in Hr'. inversion Hr'; subst result'. clear Hr'.
    destruct (append_sms_log_keeps_recent (sms_logs g) entry) as (_ & _ & Hlen).
    unfold count_attempt.
    destruct (tx_success result) eqn:Hok; simpl; repeat split; try lia; try assumption.
    apply Forall_app. split; [exact Hdoomed|]. constructor; [|constructor].
    unfold retry_doomed.
    destruct (sd_phoneNumber (data session)) as [p|]; [|left; reflexivity].
    destruct (sd_message (data session)) as [m|]; [|right; reflexivity].
    exfalso. assert (false = true) by (apply Hiff; split; eauto). discriminate.
  - rewrite Ht in Hdoomed. inversion Hdoomed as [|d l Hd Hrest]; subst.
    destruct (processSMSTransmission_result h (sd_phoneNumber smsData)
                (sd_message smsData)) as (result' & Hr' & Hiff).
    rewrite Hr in Hr'. inversion Hr'; subst result'. clear Hr'.
    assert (Hfail : tx_success result = false).
    { destruct (tx_success result); [|reflexivity].
      destruct (proj1 Hiff eq_refl) as [[p Hp] [m Hm]].
      destruct Hd as [Hd|Hd]; congruence. }
    unfold count_retry. rewrite Hfail. repeat split; assumption.
Qed.

Lemma run_keeps_accounts events g :
  accounts_balanced g -> accounts_balanced (run g events).
Proof.
  revert g. induction events as [|[h e] events IH]; intros g Hg; simpl.
  - exact Hg.
  - apply IH, handle_keeps_accounts, Hg.
Qed.

Lemma initial_accounts start : accounts_balanced (initial start).
Proof. repeat split; simpl; try lia. constructor. Qed.

(** X14: in every state a gateway can reach the counters are not
    negative and [successful + failed = totalSMS]; and the retry that a
    failed send arms never succeeds: when it fires it changes no counter
    and sends nothing, so a send counted as failed stays failed. *)
Theorem counters_balanced_and_retry_idle (start : Z)
    (events : list (Host * Event)) (h : Host) :
  let g := run (initial start) events in
  (successful (systemStats g) + failed (systemStats g)
   = totalSMS (systemStats g))%Z
  /\ (0 <= successful (systemStats g))%Z
  /\ (0 <= failed (systemStats g))%Z
  /\ systemStats (after (handle h g RetryTimer)) = systemStats g
  /\ replies (handle h g RetryTimer) = [].
Proof.
  cbn zeta.
  pose proof (run_keeps_accounts events (initial start) (initial_accounts start))
    as (Hsum & Hs & Hf & Hdoomed & _).
  set (g := run (initial start) events) in *.
  split; [exact Hsum|]. split; [exact Hs|]. split; [exact Hf|].
  simpl. unfold retry_timer.
  destruct (retryTimers g) as [|smsData armed] eqn:Ht; [split; reflexivity|].
  inversion Hdoomed as [|d l Hd Hrest]; subst.
  unfold retryTransmission.
  destruct (processSMSTransmission_result h (sd_phoneNumber smsData)
              (sd_message smsData)) as (result & Hr & Hiff).
  rewrite Hr. simpl.
  assert (Hfail : tx_success result = false).
  { destruct (tx_success result); [|reflexivity].
    destruct (proj1 Hiff eq_refl) as [[p Hp] [m Hm]].
    destruct Hd as [Hd|Hd]; congruence. }
  unfold count_retry. rewrite Hfail. split; reflexivity.
Qed.

(** X15: in every state a gateway started on an empty data directory
    can reach, [sms_logs.json] holds one record for each counted attempt,
    up to its cap: its length is [min(totalSMS, 10000)]. *)
Theorem log_length_follows_totalSMS (start : Z) (events : list (Host * Event)) :
  let g := run (initial start) events in
  Z.of_nat (length (records (sms_logs g)))
  = Z.min (totalSMS (systemStats g)) 10000.
Proof.
  cbn zeta.
  pose proof (run_keeps_accounts events (initial start) (initial_accounts start))
    as (_ & _ & _ & _ & Hlog).
  exact Hlog.
Qed.

(** ** The interactive send *)

(** X16: Send Now on a session, in a turn whose calls to Telegram and
    whose write of the log go through and which no other handler
    interrupts: the attempt is counted once, logged under its transmission
    id with the counters as they are after counting, and the session is
    closed; the attempt succeeds exactly when the session holds both a
    phone number and a message, and a retry is armed exactly when it
    fails.  The executor hands [sendSMS] a result in both cases, so the
    reply is one of the two result messages. *)
Theorem send_now_counts_logs_and_closes (h : Host) (g : Gateway) (u : Z)
    (session : Session) :
  userSessions g !! u = Some session ->
  exists result,
    processSMSTransmission h (sd_phoneNumber (data session))
      (sd_message (data session)) = Returns result
    /\ (tx_success result = true
        <-> is_Some (sd_phoneNumber (data session))
            /\ is_Some (sd_message (data session)))
    /\ let t := handle h g (FromUser u (CallbackQuery "send_immediate")) in
       outcome t = Returns tt
       /\ replies t
          = [ ProcessingTransmission;
              if tx_success result then TransmissionSuccessful result
              else TransmissionRequiresRetry result ]
       /\ userSessions (after t) !! u = None
       /\ totalSMS (systemStats (after t)) = (totalSMS (systemStats g) + 1)%Z
       /\ transmission_files (after t) !! tx_transmissionId result
          = Some (mkLogDetail result (isoTime h) (systemStats (after t)))
       /\ retryTimers (after t)
          = if tx_success result then retryTimers g
            else retryTimers g ++ [data session].
Proof.
  intros Hs.
  destruct (processSMSTransmission_result h (sd_phoneNumber (data session))
              (sd_message (data session))) as (result & Hr & Hiff).
  exists result. split; [exact Hr|]. split; [exact Hiff|].
  cbn zeta.
  rewrite (send_immediate_runs_sendSMS_with h g u session result Hs Hr).
  unfold sendSMS_with, count_attempt.
  destruct (tx_success result); simpl;
    rewrite lookup_delete_eq, lookup_insert_eq; repeat split.
Qed.

Lemma send_now_counts_logs_and_closes_witness :
  exists result,
    processSMSTransmission quiet_host (Some (lit "+923001234567"))
      (Some (lit "Hello")) = Returns result
    /\ tx_success result = true
    /\ let t := handle quiet_host ready_to_send
                  (FromUser 7 (CallbackQuery "send_immediate")) in
       replies t = [ProcessingTransmission; TransmissionSuccessful result]
       /\ userSessions (after t) !! 7%Z = None
       /\ totalSMS (systemStats (after t)) = 1%Z
       /\ retryTimers (after t) = [].
Proof.
  destruct (send_now_counts_logs_and_closes quiet_host ready_to_send 7
              (mkSession "confirm_send" "SINGLE"
                 (mkSessionData (Some (lit "+923001234567")) (Some "PAKISTAN")
                    (Some (lit "Hello")) (Some [lit "Hello"])) 0)
              eq_refl)
    as (result & Hr & Hiff & H).
  cbn zeta in H. destruct H as (_ & Hrep & Hsess & Htot & _ & Htim).
  assert (Hok : tx_success result = true)
    by (apply Hiff; split; eexists; reflexivity).
  rewrite Hok in Hrep, Htim.
  exists result. split; [exact Hr|]. split; [exact Hok|].
  cbn zeta. split; [exact Hrep|]. split; [exact Hsess|].
  split; [exact Htot|exact Htim].
Defined.



(** ** Draining the queue *)

Lemma drain_ticks_queue (hosts : list Host) (g : Gateway) :
  transmissionQueue (run g (map drain_event hosts))
  = drop (10 * length hosts) (transmissionQueue g).
Proof.
  revert g. induction hosts as [|h hosts IH]; intros g.
  - reflexivity.
  - cbn [map run drain_event handle after finished]. rewrite IH.
    rewrite processTransmissionQueue_eq. simpl transmissionQueue.
    rewrite drop_drop. f_equal. simpl length. lia.
Qed.

(** X18: [n] drain ticks with nothing arriving in between take the
    first [10 * n] requests off the queue, in order, so a backlog of [N]
    requests is gone after [ceil(N / 10)] ticks; the requests that remain
    are the tail of the queue, untouched. *)
Theorem backlog_drains_in_ceil_ticks (hosts : list Host) (g : Gateway) :
  transmissionQueue (run g (map drain_event hosts))
  = drop (10 * length hosts) (transmissionQueue g)
  /\ (ceil_div (length (transmissionQueue g)) 10 <= length hosts ->
      transmissionQueue (run g (map drain_event hosts)) = [])
  /\ (length hosts < ceil_div (length (transmissionQueue g)) 10 ->
      transmissionQueue (run g (map drain_event hosts)) <> []).
Proof.
  rewrite drain_ticks_queue.
  pose proof (Nat.div_mod_eq (length (transmissionQueue g) + 10 - 1) 10) as D.
  pose proof (Nat.mod_upper_bound (length (transmissionQueue g) + 10 - 1) 10
                ltac:(lia)) as B.
  unfold ceil_div.
  remember ((length (transmissionQueue g) + 10 - 1) / 10) as q.
  remember ((length (transmissionQueue g) + 10 - 1) mod 10) as r.
  split; [reflexivity|]. split; intros H.
  - apply drop_ge. lia.
  - intros E. apply (f_equal length) in E. rewrite length_drop in E.
    simpl in E. lia.
Qed.

Lemma backlog_drains_in_ceil_ticks_witness :
  transmissionQueue (run backlog (map drain_event [quiet_host; quiet_host])) = [].
Proof.
  apply (proj1 (proj2 (backlog_drains_in_ceil_ticks [quiet_host; quiet_host]
                         backlog))).
  vm_compute. lia.
Defined.

(** ** The user registry *)

Lemma touch_first_ids id now users :
  map user_id (touch_first id now users) = map user_id users.
Proof.
  induction users as [|u rest IH]; simpl; [reflexivity|].
  destruct (user_id u =? id)%Z; simpl; [reflexivity|]. rewrite IH. reflexivity.
Qed.

Lemma found_at_head id v rest :
  user_id v = id -> forall i, found_at id (v :: rest) i <-> i = 0.
Proof.
  intros E i. split.
  - intros [_ Hfirst]. destruct i as [|i]; [reflexivity|].
    exfalso. apply (Hfirst 0 v); [lia|reflexivity|exact E].
  - intros ->. split; [exists v; split; [reflexivity|exact E]|].
    intros j w Hj. lia.
Qed.

Lemma found_at_tail id v rest :
  user_id v <> id ->
  forall i, found_at id (v :: rest) i
            <-> exists i', i = S i' /\ found_at id rest i'.
Proof.
  intros N i. split.
  - intros [(u & Hu & Hid) Hfirst]. destruct i as [|i].
    + simpl in Hu. inversion Hu; subst u. contradiction.
    + exists i. split; [reflexivity|]. split; [exists u; split; assumption|].
      intros j w Hj Hw. apply (Hfirst (S j) w); [lia|exact Hw].
  - intros (i' & -> & (u & Hu & Hid) & Hfirst).
    split; [exists u; split; assumption|].
    intros [|j] w Hj Hw.
    + simpl in Hw. inversion Hw; subst w. exact N.
    + apply (Hfirst j w); [lia|exact Hw].
Qed.

Lemma touch_first_lookup id now users i u :
  users !! i = Some u ->
  (found_at id users i -> touch_first id now users !! i = Some (set_lastActive now u))
  /\ (~ found_at id users i -> touch_first id now users !! i = Some u).
Proof.
  revert i. induction users as [|v rest IH]; intros i Hi; [discriminate|].
  simpl. destruct (Z.eqb_spec (user_id v) id) as [E|N].
  - pose proof (found_at_head id v rest E i) as F.
    destruct i as [|i]; simpl in *.
    + inversion Hi; subst v. split; [reflexivity|].
      intros C. exfalso. apply C, F. reflexivity.
    + split; [|intros _; exact Hi].
      intros C. apply F in C. discriminate C.
  - pose proof (found_at_tail id v rest N i) as F.
    destruct i as [|i]; simpl in *.
    + split; [|intros _; exact Hi].
      intros C. apply F in C as (i' & C & _). discriminate C.
    + destruct (IH i Hi) as [IH1 IH2]. split.
      * intros C. apply IH1. apply F in C as (i' & C & C').
        inversion C; subst i'. exact C'.
      * intros C. apply IH2. intros C'. apply C, F. exists i. split; [reflexivity|exact C'].
Qed.

Lemma found_at_unique id users i j :
  found_at id users i -> found_at id users j -> i = j.
Proof.
  intros [(u & Hu & Hid) Hi] [(v & Hv & Hjd) Hj].
  destruct (Nat.lt_trichotomy i j) as [L|[E|L]]; [|exact E|].
  - exfalso. apply (Hj i u L Hu). exact Hid.
  - exfalso. apply (Hi j v L Hv). exact Hjd.
Qed.

Lemma found_at_known id users i :
  found_at id users i -> In id (map user_id users).
Proof.
  intros [(u & Hu & Hid) _]. apply in_map_iff. exists u. split; [exact Hid|].
  apply list_elem_of_In. eapply list_elem_of_lookup_2. exact Hu.
Qed.

Lemma touch_first_touches id now users :
  In id (map user_id users) ->
  exists u, In u (touch_first id now users)
            /\ user_id u = id /\ user_lastActive u = now.
Proof.
  induction users as [|v rest IH]; simpl; [contradiction|].
  destruct (Z.eqb_spec (user_id v) id) as [E|N].
  - intros _. eexists. split; [left; reflexivity|]. simpl. split; [exact E|reflexivity].
  - intros [E|Hin]; [contradiction|].
    destruct (IH Hin) as (u & Hu & Hid & Hact). exists u. simpl. tauto.
Qed.

Lemma find_id_None id (users : list UserRecord) :
  find (fun u => (user_id u =? id)%Z) users = None <-> ~ In id (map user_id users).
Proof.
  induction users as [|v rest IH]; simpl; [tauto|].
  destruct (Z.eqb_spec (user_id v) id) as [E|N].
  - split; [discriminate|]. intros H. exfalso. apply H. left. exact E.
  - rewrite IH. tauto.
Qed.

(** X19: [registerUser] keeps every record where it is.  When the id is
    known it adds nothing and changes one record only, the first with that
    id, the one [users.find] returns: that record gets [lastActive] set to
    the reading of the call and keeps every other field; all other records
    are as they were.  When the id is new every record is as it was and
    one record is appended, with the fields of the sender, [totalSMS] 0
    and the two readings of the clock.  Afterwards the id is registered
    with [lastActive] at the reading of the call, and ids that were unique
    stay unique. *)
Theorem registerUser_keeps_registry (joined active : string)
    (file : option (list UserRecord)) (userData : TelegramUser) :
  let users := records file in
  let users' := registerUser joined active file userData in
  let id := from_id userData in
  let known := existsb (fun u => (user_id u =? id)%Z) users in
  (forall i u, users !! i = Some u ->
     (found_at id users i -> users' !! i = Some (set_lastActive active u))
     /\ (~ found_at id users i -> users' !! i = Some u))
  /\ length users' = length users + (if known then 0 else 1)
  /\ (known = false ->
      users' !! length users
      = Some (mkUserRecord id (from_username userData)
                (from_first_name userData) (from_last_name userData)
                (from_language_code userData) (from_is_bot userData)
                joined 0 active))
  /\ (known = true -> exists i, found_at id users i)
  /\ (forall i j, found_at id users i -> found_at id users j -> i = j)
  /\ (exists u, In u users' /\ user_id u = id /\ user_lastActive u = active)
  /\ (NoDup (map user_id users) -> NoDup (map user_id users')).
Proof.
  cbn zeta. unfold registerUser. fold (records file).
  set (users := records file). set (id := from_id userData).
  destruct (find (fun u => (user_id u =? id)%Z) users) as [existing|] eqn:Hfind.
  - assert (Hin : In id (map user_id users)).
    { destruct (in_dec Z.eq_dec id (map user_id users)) as [H|H]; [exact H|].
      apply find_id_None in H. congruence. }
    assert (Hex : existsb (fun u => (user_id u =? id)%Z) users = true).
    { apply existsb_exists. apply in_map_iff in Hin as (u & Hu & Hin).
      exists u. split; [exact Hin|]. apply Z.eqb_eq. exact Hu. }
    rewrite Hex. repeat apply conj.
    + intros i u Hi. apply touch_first_lookup. exact Hi.
    + rewrite <- (length_map user_id), touch_first_ids, length_map. lia.
    + discriminate.
    + intros _. clear Hfind Hex. induction users as [|v rest IH]; [contradiction|].
      destruct (Z.eq_dec (user_id v) id) as [E|N].
      * exists 0. apply found_at_head; [exact E|reflexivity].
      * destruct Hin as [E|Hin]; [contradiction|].
        destruct (IH Hin) as [i Hi]. exists (S i).
        apply found_at_tail; [exact N|]. exists i. split; [reflexivity|exact Hi].
    + apply found_at_unique.
    + apply touch_first_touches. exact Hin.
    + rewrite touch_first_ids. tauto.
  - assert (Hnot : ~ In id (map user_id users)) by (apply find_id_None; exact Hfind).
    assert (Hex : existsb (fun u => (user_id u =? id)%Z) users = false).
    { destruct (existsb _ users) eqn:E; [|reflexivity].
      apply existsb_exists in E as (u & Hin & Hu). apply Z.eqb_eq in Hu.
      exfalso. apply Hnot. apply in_map_iff. exists u. tauto. }
    rewrite Hex. repeat apply conj.
    + intros i u Hi.
      rewrite lookup_app_l by (eapply lookup_lt_Some; exact Hi).
      split; [|intros _; exact Hi].
      intros C. exfalso. apply Hnot. eapply found_at_known. exact C.
    + rewrite length_app. reflexivity.
    + intros _. rewrite lookup_app_r by lia. rewrite Nat.sub_diag. reflexivity.
    + discriminate.
    + apply found_at_unique.
    + eexists. split; [apply in_or_app; right; left; reflexivity|].
      split; reflexivity.
    + intros Hnd. rewrite map_app. simpl.
      apply NoDup_app. split; [exact Hnd|]. split.
      * intros x Hx Hx'. apply list_elem_of_In in Hx.
        apply list_elem_of_singleton in Hx'. subst x. contradiction.
      * apply NoDup_singleton.
Qed.

(** ** Selection without jitter *)

(** X20: with the jitter pinned to 0 the selection is a function of the
    profile alone: QUANTUM_TUNNELING for a PAKISTAN number, else
    VIRTUAL_GSM_SIMULATION for a message of more than 160 units, else
    WAVE_FUNCTION_TRANSMISSION.  AI_OPTIMIZED_ROUTING is not selected even
    with its priority bonus, its [0.5 + 0.2 + 0.2] being rounded below
    [0.9]. *)
Theorem selection_without_jitter (optimization : Optimization)
    (draws : nat -> Q) :
  (forall k, jitter (draws k) == 0)%Q ->
  selectBestTransmissionMethod draws optimization
  = Returns
      (if String.eqb (opt_country optimization) "PAKISTAN"
       then "QUANTUM_TUNNELING"%string
       else if (160 <? opt_messageLength optimization)%nat
            then "VIRTUAL_GSM_SIMULATION"%string
            else "WAVE_FUNCTION_TRANSMISSION"%string).
Proof.
  intros Hd.
  assert (E : forall k method,
             scoreTransmissionMethod method optimization (draws k)
             = scoreTransmissionMethod method optimization 0.5%Q).
  { intros k method. apply scoreTransmissionMethod_jitter_free; [apply Hd|].
    reflexivity. }
  unfold selectBestTransmissionMethod, selectBest_over,
    config.TRANSMISSION_METHODS.
  cbn [imap]. unfold compose. rewrite !E. clear E Hd.
  unfold scoreTransmissionMethod. simpl String.eqb. cbv iota.
  destruct (String.eqb (opt_country optimization) "PAKISTAN");
    destruct (160 <? opt_messageLength optimization)%nat;
    destruct (negb (Qle_bool (opt_priority optimization) (dbl 1)));
    vm_compute; reflexivity.
Qed.

Lemma selection_without_jitter_witness :
  selectBestTransmissionMethod (fun _ => 0.5%Q) usa_profile
  = Returns "WAVE_FUNCTION_TRANSMISSION".
Proof.
  pose proof (selection_without_jitter usa_profile (fun _ => 0.5%Q)) as H.
  cbv beta in H. apply H. intros k. reflexivity.
Defined.

(** ** A failed transmission *)

(** X21: when the phone number or the message is [undefined] the
    executor returns a failure whose error is the TypeError of the first
    property read that fails: [startsWith] when the number is missing,
    whatever the message, and [length] when only the message is missing.
    The result repeats the phone number it was given and has no parts and
    no transmission details. *)
Theorem failed_result_shape (h : Host) (phoneNumber message : option jsstring) :
  phoneNumber = None \/ message = None ->
  exists result,
    processSMSTransmission h phoneNumber message = Returns result
    /\ tx_success result = false
    /\ tx_status result = "FAILED"%string
    /\ tx_method result = "FAILED"%string
    /\ tx_error result
       = Some (err_message
                 (reading_of_undefined
                    (match phoneNumber with
                     | None => "startsWith"
                     | Some _ => "length"
                     end)))
    /\ tx_phoneNumber result = phoneNumber
    /\ tx_transmissionId result = transmissionIdDraw h
    /\ tx_timeTaken result = (endTime h - startTime h)%Z
    /\ tx_parts result = None
    /\ tx_transmission result = None.
Proof.
  intros [-> | ->]; [|destruct phoneNumber as [p|]];
    eexists; (split; [reflexivity|]); repeat split.
Qed.

Lemma failed_result_shape_witness :
  exists result,
    processSMSTransmission quiet_host (Some (lit "+923001234567")) None
    = Returns result
    /\ tx_error result
       = Some "Cannot read properties of undefined (reading 'length')"%string.
Proof.
  destruct (failed_result_shape quiet_host (Some (lit "+923001234567")) None
              (or_intror eq_refl)) as (result & Hr & _ & _ & _ & He & _).
  exists result. split; [exact Hr|exact He].
Defined.

(** ** The queue *)

Lemma handle_queue h g e :
  transmissionQueue (after (handle h g e)) = transmissionQueue g
  \/ transmissionQueue (after (handle h g e)) = drop 10 (transmissionQueue g).
Proof.
  destruct e as [u upd| | | |]; simpl.
  - rewrite after_bot_catch. left.
    destruct (on_send_path (FromUser u upd)) eqn:E.
    + rewrite (send_path_update _ _ _ _ E).
      destruct (sendSMS_after h g u) as [->|(session & result & _ & ->)];
        [reflexivity|].
      unfold sendSMS_with. destruct (tx_success result); reflexivity.
    + destruct (handle_update_sessions h g u upd E) as [m ->]. reflexivity.
  - left. destruct (retry_timer_after h g) as (st & ts & ->). reflexivity.
  - right. rewrite processTransmissionQueue_eq. reflexivity.
  - left. reflexivity.
  - left. reflexivity.
Qed.

(** X22: nothing in the gateway puts a request on the transmission
    queue: in every state a gateway can reach the queue is empty, and a
    drain tick changes nothing at all. *)
Theorem queue_is_never_filled (start : Z) (events : list (Host * Event))
    (h : Host) :
  transmissionQueue (run (initial start) events) = []
  /\ after (handle h (run (initial start) events) QueueTick)
     = run (initial start) events.
Proof.
  assert (Hq : forall g, transmissionQueue g = [] ->
                         transmissionQueue (run g events) = []).
  { induction events as [|[h' e] events IH]; intros g Hg; simpl; [exact Hg|].
    apply IH. destruct (handle_queue h' g e) as [->| ->]; [exact Hg|].
    rewrite Hg. reflexivity. }
  specialize (Hq (initial start) eq_refl).
  split; [exact Hq|].
  simpl. unfold processTransmissionQueue. rewrite Hq. reflexivity.
Qed.
